(** * Psi-EMA signal engine: [lib/fetch-stock-prices.py]

    A shallow embedding of the four indicator calculators of
    [get_stock_data]: [calculate_ema], [calc_theta_from_flow], [calc_z] and
    [calc_r] (with its helper [rolling_z]).

    Modelling choices.

    - A pandas [Series] of closing prices is a [list] of numbers, oldest
      first.  [len], [.iloc[i]], [.iloc[i:]] and [.iloc[:j]] follow Python's
      indexing rules, negative indices included.
    - Python exceptions are explicit: every calculator returns a [result],
      either [Ok v] or [Raise e].  Scalar indexing out of range raises
      [IndexError]; division by zero raises [ZeroDivisionError].
    - [calculate_ema] uses only [+], [-], [*] and [/]; it is written once
      over a [Number] interface and run at two instances: IEEE-754 binary64
      (Rocq's primitive floats, bit-exact for these four operations) and the
      real numbers.
    - The other calculators call library functions ([median], [abs],
      [round], [math.atan2], [math.degrees]); they are modelled over the
      real numbers, with [round] as round-half-to-even on decimals and
      [atan2] with the C quadrant conventions.
    - The reals and the running binary64 arithmetic can part where a
      rounding decides: a decimal tie of [round], the mean of the two middle
      values of a median, the sign of a zero in [atan2].  What is proved on
      the real model (control flow, defaults, ranges, signs) does not turn on
      these.  The value [calc_z] returns is stated on [Generic.calc_z], the
      same lines over an interface of the library operations, with a
      binary64 instance beside the real one. *)

From Stdlib Require Import Reals Lra Lia ZArith List Bool Floats.
From Stdlib Require Import Permutation Sorted.
Import ListNotations.

(** ** Exceptions as values *)

Inductive exn : Type :=
| IndexError
| ZeroDivisionError
| NotANumber.

Inductive result (A : Type) : Type :=
| Ok (a : A)
| Raise (e : exn).

Arguments Ok {A} a.
Arguments Raise {A} e.

Definition bind {A B : Type} (c : result A) (k : A -> result B) : result B :=
  match c with
  | Ok a => k a
  | Raise e => Raise e
  end.

Notation "x <- c ;; k" := (bind c (fun x => k))
  (at level 61, c at next level, right associativity).

(** ** Series indexing *)

Section Series.
Context {T : Type}.

(** [len(series)] *)
Definition len (series : list T) : Z := Z.of_nat (length series).

(** [series.iloc[i]]: a negative [i] counts from the end; out of range
    raises. *)
Definition iloc (series : list T) (i : Z) : result T :=
  let j := (if i <? 0 then i + len series else i)%Z in
  if (j <? 0)%Z then Raise IndexError
  else match nth_error series (Z.to_nat j) with
       | Some v => Ok v
       | None => Raise IndexError
       end.

(** Where a slice bound lands: negative bounds count from the end and every
    bound is clipped to [0 .. len]; slices never raise. *)
Definition slice_bound (series : list T) (i : Z) : nat :=
  Z.to_nat (if i <? 0 then Z.max 0 (i + len series)
            else Z.min i (len series))%Z.

(** [series.iloc[i:]] *)
Definition iloc_from (series : list T) (i : Z) : list T :=
  skipn (slice_bound series i) series.

(** [series.iloc[:j]] *)
Definition iloc_upto (series : list T) (j : Z) : list T :=
  firstn (slice_bound series j) series.

End Series.

(** ** The arithmetic [calculate_ema] needs *)

Class Number (T : Type) : Type := {
  of_int : Z -> T;
  add : T -> T -> T;
  sub : T -> T -> T;
  mul : T -> T -> T;
  div : T -> T -> T
}.

(** Python's [a / b] on two ints: a number, or [ZeroDivisionError]. *)
Definition int_truediv {T : Type} `{Number T} (a b : Z) : result T :=
  if (b =? 0)%Z then Raise ZeroDivisionError
  else Ok (div (of_int a) (of_int b)).

(** binary64.  [of_int] is exact for [|z| < 2^53], which covers every period
    that passes the length test of [calculate_ema]. *)
#[export] Instance float64 : Number float := {
  of_int z := (if (z <? 0)%Z
               then PrimFloat.opp (PrimFloat.of_uint63 (Uint63.of_Z (- z)))
               else PrimFloat.of_uint63 (Uint63.of_Z z));
  add := PrimFloat.add;
  sub := PrimFloat.sub;
  mul := PrimFloat.mul;
  div := PrimFloat.div
}.

(** Exact real arithmetic: no operation rounds. *)
#[export] Instance real : Number R := {
  of_int := IZR;
  add := Rplus;
  sub := Rminus;
  mul := Rmult;
  div := Rdiv
}.

(** ** [calculate_ema] (lines 16-24) *)

Section Ema.
Context {T : Type} `{Number T}.

(** One pass of the loop body:
    [ema = (val * multiplier) + (ema * (1 - multiplier))]. *)
Definition ema_step (multiplier ema val : T) : T :=
  add (mul val multiplier) (mul ema (sub (of_int 1) multiplier)).

Definition calculate_ema (series : list T) (period : Z)
  : result (option T) :=
  if (len series <? period)%Z then Ok None
  else
    multiplier <- int_truediv 2 (period + 1) ;;
    ema <- iloc series 0 ;;
    Ok (Some (fold_left (ema_step multiplier) (iloc_from series 1) ema)).

(** The recurrence as the specification words it: seed with the first
    element, then fold the update over the remaining elements in time
    order. *)
Fixpoint ema_recurrence (multiplier avg : T) (rest : list T) : T :=
  match rest with
  | [] => avg
  | value :: rest' =>
      ema_recurrence multiplier
        (add (mul value multiplier) (mul avg (sub (of_int 1) multiplier)))
        rest'
  end.

End Ema.

(** ** Library functions over the reals *)

Local Open Scope R_scope.

Definition Rltb (x y : R) : bool := if Rlt_dec x y then true else false.
Definition Reqb (x y : R) : bool := if Req_dec_T x y then true else false.

(** [x / y] on two numbers, with Python's [ZeroDivisionError]. *)
Definition truediv (x y : R) : result R :=
  if Reqb y 0 then Raise ZeroDivisionError else Ok (x / y).

(** Python's two-argument [min(a, b)] and [max(a, b)]: the second argument
    wins only when it compares strictly smaller (larger). *)
Definition py_min (a b : R) : R := if Rltb b a then b else a.
Definition py_max (a b : R) : R := if Rltb a b then b else a.

(** Nearest integer, ties to the even one. *)
Definition round_half_even (y : R) : Z :=
  let n := Zfloor y in
  let d := y - IZR n in
  if Rltb d (1 / 2) then n
  else if Rltb (1 / 2) d then (n + 1)%Z
  else if Z.even n then n else (n + 1)%Z.

(** [round(x, ndigits)], applied to the exact real [x].  The program rounds
    a binary64 value; at a decimal tie of the exact value the two can fall
    on different sides. *)
Definition py_round (x : R) (ndigits : nat) : R :=
  IZR (round_half_even (x * 10 ^ ndigits)) / 10 ^ ndigits.

(** [math.atan2(y, x)] with the C conventions: the angle of the point
    [(x, y)] in [(-PI, PI]], [+-PI/2] on the vertical axis and [0] at the
    origin.  The reals have one zero: the cases that C tells apart by the
    sign of a zero argument ([atan2(+0.0, -0.0)] is [PI]) are those of
    [+0.0] here. *)
Definition atan2 (y x : R) : R :=
  if Rltb 0 x then atan (y / x)
  else if Rltb x 0 then
    (if Rltb y 0 then atan (y / x) - PI else atan (y / x) + PI)
  else if Rltb 0 y then PI / 2
  else if Rltb y 0 then - (PI / 2)
  else 0.

(** [math.degrees(x)] *)
Definition degrees (x : R) : R := x * (180 / PI).

(** Ascending order, by insertion. *)
Fixpoint insert (x : R) (l : list R) : list R :=
  match l with
  | [] => [x]
  | y :: l' => if Rle_dec x y then x :: l else y :: insert x l'
  end.

Fixpoint sort (l : list R) : list R :=
  match l with
  | [] => []
  | x :: l' => insert x (sort l')
  end.

(** [series.median()]: the middle value of the sorted series, or the mean of
    the two middle values when the length is even (exact here, rounded in
    binary64).  pandas answers NaN for an empty series; the reals have no
    such value, so the model raises. *)
Definition series_median (series : list R) : result R :=
  let v := sort series in
  let n := length v in
  if (n =? 0)%nat then Raise NotANumber
  else if Nat.even n
       then Ok ((nth (n / 2 - 1) v 0 + nth (n / 2) v 0) / 2)
       else Ok (nth (n / 2) v 0).

(** [(series - m).abs()] *)
Definition abs_deviations (series : list R) (m : R) : list R :=
  map Rabs (map (fun x => x - m) series).

(** ** [calc_theta_from_flow] (lines 63-72) *)

Definition calc_theta_from_flow (prices : list R) : result R :=
  if (len prices <? 2)%Z then Ok 0
  else
    current <- iloc prices (-1) ;;
    prev <- iloc prices (-2) ;;
    let delta := current - prev in
    let theta_rad := atan2 delta prev in
    let theta_deg := degrees theta_rad in
    Ok (py_round theta_deg 2).

(** ** [calc_z] (lines 75-83) *)

Definition calc_z (prices : list R) (current : R) : result R :=
  if (len prices <? 21)%Z then Ok 0
  else
    median <- series_median prices ;;
    mad <- series_median (abs_deviations prices median) ;;
    if Reqb mad 0 then Ok 0
    else
      z <- truediv (current - median) mad ;;
      Ok (py_round z 2).

(** ** [calc_r] and its helper [rolling_z] (lines 87-107) *)

Definition rolling_z (series : list R) (lookback : Z) : result (option R) :=
  if (len series <? lookback)%Z then Ok None
  else
    let recent := iloc_from series (- lookback) in
    median <- series_median recent ;;
    mad <- series_median (abs_deviations recent median) ;;
    if Reqb mad 0 then Ok None
    else
      last <- iloc series (-1) ;;
      z <- truediv (last - median) mad ;;
      Ok (Some z).

(** [z_prev = rolling_z(prices.iloc[:-1], 34) if len(prices) > 34 else None] *)
Definition z_prev_of (prices : list R) : result (option R) :=
  if (34 <? len prices)%Z then rolling_z (iloc_upto prices (-1)) 34
  else Ok None.

Definition calc_r (prices : list R) : result R :=
  if (len prices <? 35)%Z then Ok 1
  else
    z_curr <- rolling_z prices 34 ;;
    z_prev <- z_prev_of prices ;;
    match z_curr, z_prev with
    | Some zc, Some zp =>
        if Reqb zp 0 then Ok 1
        else
          r <- truediv zc zp ;;
          Ok (py_round (py_max (-5) (py_min 5 r)) 2)
    | _, _ => Ok 1
    end.

(** ** [calc_z] over any arithmetic

    [calc_z] above computes with exact reals.  The program computes in
    binary64, where the quotient [(current - median) / mad] and the mean of
    the two middle values carry a rounding, so that the two can part at a
    decimal tie.  What [calc_z] returns is therefore stated on the same
    lines written once more over an interface of the library operations
    they call, as [calculate_ema] is over [Number]; the reals and binary64
    are two instances of it. *)

Module Generic.

Class Library (T : Type) {N : Number T} : Type := {
  eq_test : T -> T -> bool;            (* [x == y] *)
  abs_of : T -> T;                     (* [abs(x)] *)
  median_of : list T -> result T;      (* [series.median()] *)
  round_to : T -> nat -> T             (* [round(x, ndigits)] *)
}.

Section Calculators.
Context {T : Type} {N : Number T} {L : Library T}.

Definition checked_div (x y : T) : result T :=
  if eq_test y (of_int 0) then Raise ZeroDivisionError else Ok (div x y).

(** Lines 75-83. *)
Definition calc_z (prices : list T) (current : T) : result T :=
  if (len prices <? 21)%Z then Ok (of_int 0)
  else
    median <- median_of prices ;;
    mad <- median_of (map abs_of (map (fun x => sub x median) prices)) ;;
    if eq_test mad (of_int 0) then Ok (of_int 0)
    else
      z <- checked_div (sub current median) mad ;;
      Ok (round_to z 2).

End Calculators.

(** The reals, with the library functions of the sections above. *)
#[global] Instance real_library : Library R := {
  eq_test := Reqb;
  abs_of := Rabs;
  median_of := series_median;
  round_to := py_round
}.

(** binary64.  The median skips NaN as pandas does, sorts, and takes the
    middle value or [(a + b) / 2] of the two middle values; an empty series
    gives NaN.  [round] on a NumPy float64 multiplies by [10 ^ ndigits],
    rounds to the nearest integer with ties to even, and divides again.  The
    sign of a zero result is not tracked. *)
Definition is_nan (x : float) : bool := negb (PrimFloat.eqb x x).

Fixpoint float_insert (x : float) (l : list float) : list float :=
  match l with
  | [] => [x]
  | y :: l' => if PrimFloat.leb x y then x :: l else y :: float_insert x l'
  end.

Fixpoint float_sort (l : list float) : list float :=
  match l with
  | [] => []
  | x :: l' => float_insert x (float_sort l')
  end.

Definition float_median (series : list float) : result float :=
  let v := float_sort (filter (fun x => negb (is_nan x)) series) in
  let n := length v in
  if (n =? 0)%nat then Ok PrimFloat.nan
  else if Nat.even n
       then Ok (PrimFloat.div
                  (PrimFloat.add (nth (n / 2 - 1) v 0%float)
                                 (nth (n / 2) v 0%float))
                  2%float)
       else Ok (nth (n / 2) v 0%float).

(** The nearest integer, ties to even: below [2 ^ 52] adding and
    subtracting [2 ^ 52] rounds exactly there; from [2 ^ 52] on every
    binary64 value is an integer. *)
Definition rint (y : float) : float :=
  let big := 4503599627370496%float in
  if PrimFloat.ltb (PrimFloat.abs y) big
  then
    let r := PrimFloat.sub (PrimFloat.add (PrimFloat.abs y) big) big in
    if PrimFloat.ltb y 0%float then PrimFloat.opp r else r
  else y.

Definition float_round (x : float) (ndigits : nat) : float :=
  let scale := of_int (10 ^ Z.of_nat ndigits) in
  PrimFloat.div (rint (PrimFloat.mul x scale)) scale.

#[global] Instance float_library : Library float := {
  eq_test := PrimFloat.eqb;
  abs_of := PrimFloat.abs;
  median_of := float_median;
  round_to := float_round
}.

End Generic.

(** 21 bars with median 0 and median absolute deviation 5.  Scoring 6.125
    against them is a decimal tie over the reals, [1.225], and just above
    the tie in binary64, where [6.125 / 5] is [1.2250000000000001]. *)
Definition tie_series : list float :=
  (repeat (-5) 10 ++ [0] ++ repeat 5 10)%float.

Definition tie_series_real : list R := repeat (-5) 10 ++ [0] ++ repeat 5 10.

(** A 34-bar series pinned at 100, in binary64. *)
Definition flat_100 : list float := repeat 100%float 34.

(** 35 bars: seventeen closes at 0, seventeen at 2, and a last close at 4. *)
Definition step_series : list R := repeat 0 17 ++ repeat 2 17 ++ [4].

(** * The rest of the script *)

(** ** [sanitize_ticker] (lines 12-14)

    A ticker is a list of characters.  [str.upper], [str.replace] and
    [str.strip] are modelled on ASCII text, where they act one character at
    a time; the properties below are stated for ASCII tickers. *)

From Stdlib Require Import Ascii.

Definition is_ascii_text (s : list ascii) : bool :=
  forallb (fun c => (nat_of_ascii c <? 128)%nat) s.

Definition is_lower (c : ascii) : bool :=
  ((97 <=? nat_of_ascii c) && (nat_of_ascii c <=? 122))%nat.

(** [s.upper()] *)
Definition upper_char (c : ascii) : ascii :=
  if is_lower c then ascii_of_nat (nat_of_ascii c - 32) else c.

Definition str_upper (s : list ascii) : list ascii := map upper_char s.

(** [s.replace(old, '')] for a one-character [old]: every occurrence goes. *)
Definition str_remove (old : ascii) (s : list ascii) : list ascii :=
  filter (fun c => negb (Ascii.eqb c old)) s.

(** What [str.strip()] removes: tab to carriage return, the four separators
    [0x1c] to [0x1f], and the space. *)
Definition is_space (c : ascii) : bool :=
  (((9 <=? nat_of_ascii c) && (nat_of_ascii c <=? 13))
   || ((28 <=? nat_of_ascii c) && (nat_of_ascii c <=? 32)))%nat.

Fixpoint lstrip (s : list ascii) : list ascii :=
  match s with
  | [] => []
  | c :: s' => if is_space c then lstrip s' else s
  end.

Fixpoint rstrip (s : list ascii) : list ascii :=
  match s with
  | [] => []
  | c :: s' =>
      match rstrip s' with
      | [] => if is_space c then [] else [c]
      | kept => c :: kept
      end
  end.

(** [s.strip()] *)
Definition str_strip (s : list ascii) : list ascii := rstrip (lstrip s).

Definition sanitize_ticker (ticker : list ascii) : list ascii :=
  str_strip (str_remove "^"%char (str_upper ticker)).

Definition starts_with_space (s : list ascii) : bool :=
  match s with
  | [] => false
  | c :: _ => is_space c
  end.

Definition ends_with_space (s : list ascii) : bool :=
  match s with
  | [] => false
  | c :: _ => is_space (last s c)
  end.

(** A ticker [sanitize_ticker] has nothing to do on: no lower-case letter,
    no caret, no white space at either end. *)
Definition clean_ticker (s : list ascii) : bool :=
  forallb (fun c => negb (is_lower c)) s
  && forallb (fun c => negb (Ascii.eqb c "^"%char)) s
  && negb (starts_with_space s)
  && negb (ends_with_space s).

(** ** The indicator stage of [get_stock_data] (lines 42-117)

    The stage takes the [Close] columns of the daily and the weekly history
    once they are fetched, and computes every local the report reads the
    indicators from.  A frame is empty exactly when its [Close] column is. *)

Record indicators : Type := {
  current_price : R;
  prev_price : R;
  daily_ema_34 : option R;
  daily_ema_55 : option R;
  daily_ema_21 : option R;
  daily_ema_13 : option R;
  weekly_ema_34 : option R;
  weekly_ema_55 : option R;
  weekly_ema_21 : option R;
  weekly_ema_13 : option R;
  daily_theta : R;
  daily_z : R;
  daily_r : R;
  weekly_theta : R;
  weekly_z : R;
  weekly_r : R;
  daily_candles : Z;
  weekly_candles : Z
}.

(** Where the stage ends: at the [return {"error": "No data found ..."}] of
    line 43, or past line 117 with its locals. *)
Inductive stage : Type :=
| NoDataFound
| Computed (v : indicators).

Definition get_stock_data_indicators (hist_daily hist_weekly : list R)
  : result stage :=
  if (len hist_daily =? 0)%Z then Ok NoDataFound
  else
    current <- iloc hist_daily (-1) ;;
    prev <- (if (1 <? len hist_daily)%Z then iloc hist_daily (-2)
             else Ok current) ;;
    d34 <- calculate_ema hist_daily 34 ;;
    d55 <- calculate_ema hist_daily 55 ;;
    d21 <- calculate_ema hist_daily 21 ;;
    d13 <- calculate_ema hist_daily 13 ;;
    w34 <- calculate_ema hist_weekly 34 ;;
    w55 <- calculate_ema hist_weekly 55 ;;
    w21 <- calculate_ema hist_weekly 21 ;;
    w13 <- calculate_ema hist_weekly 13 ;;
    dtheta <- calc_theta_from_flow hist_daily ;;
    dz <- calc_z hist_daily current ;;
    dr <- calc_r hist_daily ;;
    wtheta <- calc_theta_from_flow hist_weekly ;;
    wlast <- iloc hist_weekly (-1) ;;
    wz <- calc_z hist_weekly wlast ;;
    wr <- calc_r hist_weekly ;;
    Ok (Computed {|
          current_price := current; prev_price := prev;
          daily_ema_34 := d34; daily_ema_55 := d55;
          daily_ema_21 := d21; daily_ema_13 := d13;
          weekly_ema_34 := w34; weekly_ema_55 := w55;
          weekly_ema_21 := w21; weekly_ema_13 := w13;
          daily_theta := dtheta; daily_z := dz; daily_r := dr;
          weekly_theta := wtheta; weekly_z := wz; weekly_r := wr;
          daily_candles := len hist_daily;
          weekly_candles := len hist_weekly
        |}).

(** The locals of a completed stage, as lines 46-117 assign them. *)
Definition computed_from (hist_daily hist_weekly : list R) (v : indicators)
  : Prop :=
  iloc hist_daily (-1) = Ok (current_price v) /\
  (if (1 <? len hist_daily)%Z then iloc hist_daily (-2)
   else Ok (current_price v)) = Ok (prev_price v) /\
  calculate_ema hist_daily 34 = Ok (daily_ema_34 v) /\
  calculate_ema hist_daily 55 = Ok (daily_ema_55 v) /\
  calculate_ema hist_daily 21 = Ok (daily_ema_21 v) /\
  calculate_ema hist_daily 13 = Ok (daily_ema_13 v) /\
  calculate_ema hist_weekly 34 = Ok (weekly_ema_34 v) /\
  calculate_ema hist_weekly 55 = Ok (weekly_ema_55 v) /\
  calculate_ema hist_weekly 21 = Ok (weekly_ema_21 v) /\
  calculate_ema hist_weekly 13 = Ok (weekly_ema_13 v) /\
  calc_theta_from_flow hist_daily = Ok (daily_theta v) /\
  calc_z hist_daily (current_price v) = Ok (daily_z v) /\
  calc_r hist_daily = Ok (daily_r v) /\
  calc_theta_from_flow hist_weekly = Ok (weekly_theta v) /\
  (exists last,
      iloc hist_weekly (-1) = Ok last /\
      calc_z hist_weekly last = Ok (weekly_z v)) /\
  calc_r hist_weekly = Ok (weekly_r v) /\
  daily_candles v = len hist_daily /\
  weekly_candles v = len hist_weekly.

(** [get_stock_data] answers [{"error": ...}] when the stage stops at line
    43 or raises into the [except] of lines 211-212. *)
Definition error_object (outcome : result stage) : bool :=
  match outcome with
  | Ok (Computed _) => false
  | Ok NoDataFound => true
  | Raise _ => true
  end.

(** ["regularMarketChange"] (line 136) *)
Definition regularMarketChange (v : indicators) : R :=
  current_price v - prev_price v.

(** ["regularMarketChangePercent"] (line 137) *)
Definition regularMarketChangePercent (v : indicators) : result R :=
  if negb (Reqb (prev_price v) 0)
  then
    q <- truediv (current_price v - prev_price v) (prev_price v) ;;
    Ok (q * 100)
  else Ok 0.

(** ** The command line (lines 214-223) *)

Inductive invocation : Type :=
| Usage
| Run (ticker period : list ascii) (end_date : option (list ascii)).

(** [sys.argv] is a list of strings; [Usage] is the usage message with exit
    status 1. *)
Definition main_arguments (argv : list (list ascii)) : result invocation :=
  if (len argv <? 2)%Z then Ok Usage
  else
    ticker <- iloc argv 1 ;;
    period <- (if (2 <? len argv)%Z then iloc argv 2
               else Ok ["1"; "y"]%char) ;;
    end_date <- (if (3 <? len argv)%Z
                 then date <- iloc argv 3 ;; Ok (Some date)
                 else Ok None) ;;
    Ok (Run ticker period end_date).

(** * Properties *)

Lemma Ok_inj {A : Type} (a b : A) : Ok a = Ok b -> a = b.
Proof. intros E. now injection E. Qed.

(** ** Indexing *)

Section SeriesFacts.
Context {T : Type}.
Implicit Types (s : list T) (x : T).

Lemma len_nonneg s : (0 <= len s)%Z.
Proof. unfold len; lia. Qed.

Lemma len_cons x s : len (x :: s) = (len s + 1)%Z.
Proof. unfold len; simpl length; lia. Qed.

Lemma len_app s1 s2 : len (s1 ++ s2) = (len s1 + len s2)%Z.
Proof. unfold len; rewrite length_app; lia. Qed.

Lemma iloc_first x s : iloc (x :: s) 0 = Ok x.
Proof. reflexivity. Qed.

Lemma iloc_from_1 x s : iloc_from (x :: s) 1 = s.
Proof.
  unfold iloc_from, slice_bound.
  rewrite len_cons.
  change (1 <? 0)%Z with false; cbv iota.
  pose proof (len_nonneg s).
  replace (Z.to_nat (Z.min 1 (len s + 1))) with 1%nat by lia.
  reflexivity.
Qed.

(** An index counted from the end, inside the series. *)
Lemma iloc_from_end s1 x s2 :
  iloc (s1 ++ x :: s2) (- (len s2 + 1)) = Ok x.
Proof.
  unfold iloc.
  pose proof (len_nonneg s1) as H1; pose proof (len_nonneg s2) as H2.
  rewrite len_app, len_cons.
  destruct (Z.ltb_spec (- (len s2 + 1)) 0) as [_|?]; [|lia].
  destruct (Z.ltb_spec (- (len s2 + 1) + (len s1 + (len s2 + 1))) 0)
    as [?|_]; [lia|].
  replace (Z.to_nat (- (len s2 + 1) + (len s1 + (len s2 + 1))))
    with (length s1 + 0)%nat by (unfold len; lia).
  rewrite nth_error_app2 by lia.
  replace (length s1 + 0 - length s1)%nat with 0%nat by lia.
  reflexivity.
Qed.

Lemma iloc_last s x : iloc (s ++ [x]) (-1) = Ok x.
Proof. exact (iloc_from_end s x []). Qed.

Lemma iloc_second_last s x y : iloc (s ++ [x; y]) (-2) = Ok x.
Proof. exact (iloc_from_end s x [y]). Qed.

Lemma iloc_last2 s x y : iloc (s ++ [x; y]) (-1) = Ok y.
Proof.
  change (s ++ [x; y]) with (s ++ [x] ++ [y]).
  rewrite app_assoc. apply iloc_last.
Qed.

(** A series of at least two bars ends in two bars. *)
Lemma two_last s :
  (2 <= len s)%Z -> exists s' x y, s = s' ++ [x; y].
Proof.
  intros Hlen.
  destruct (exists_last (l := s)) as (s1 & y & ->).
  { intros ->. unfold len in Hlen. simpl in Hlen. lia. }
  destruct (exists_last (l := s1)) as (s2 & x & ->).
  { intros ->. unfold len in Hlen. simpl in Hlen. lia. }
  exists s2, x, y. now rewrite <- app_assoc.
Qed.

Lemma iloc_upto_drop_last s x : iloc_upto (s ++ [x]) (-1) = s.
Proof.
  unfold iloc_upto, slice_bound.
  rewrite len_app. pose proof (len_nonneg s).
  change (len [x]) with 1%Z. change (-1 <? 0)%Z with true; cbv iota.
  replace (Z.to_nat (Z.max 0 (-1 + (len s + 1)))) with (length s + 0)%nat
    by (unfold len; lia).
  rewrite firstn_app_2. simpl. now rewrite app_nil_r.
Qed.

Lemma len_iloc_upto_drop_last s :
  (1 <= len s)%Z -> len (iloc_upto s (-1)) = (len s - 1)%Z.
Proof.
  intros Hlen.
  destruct (exists_last (l := s)) as (s1 & y & ->).
  { intros ->. unfold len in Hlen. simpl in Hlen. lia. }
  rewrite iloc_upto_drop_last, len_app. change (len [y]) with 1%Z. lia.
Qed.

(** The trailing [k] bars. *)
Lemma len_iloc_from_tail s k :
  (0 < k <= len s)%Z -> len (iloc_from s (- k)) = k.
Proof.
  intros Hk. unfold iloc_from, slice_bound.
  destruct (Z.ltb_spec (- k) 0) as [_|?]; [|lia].
  unfold len in *. rewrite length_skipn. lia.
Qed.

Lemma iloc_in_range s i :
  (- len s <= i < len s)%Z -> exists v, iloc s i = Ok v.
Proof.
  intros Hi. unfold iloc.
  set (j := (if (i <? 0)%Z then (i + len s)%Z else i)).
  assert (Hj : (0 <= j < len s)%Z).
  { subst j. destruct (Z.ltb_spec i 0); lia. }
  destruct (Z.ltb_spec j 0) as [?|_]; [lia|].
  destruct (nth_error s (Z.to_nat j)) as [v|] eqn:E; [now exists v|].
  apply nth_error_None in E. unfold len in Hj. lia.
Qed.

End SeriesFacts.

(** ** [calculate_ema] *)

Section EmaFacts.
Context {T : Type} {N : Number T}.
Implicit Types (series rest : list T) (period : Z).

(** The [for] loop is the recurrence. *)
Lemma ema_loop_recurrence (m : T) rest (avg : T) :
  fold_left (ema_step m) rest avg = ema_recurrence m avg rest.
Proof.
  revert avg. induction rest as [|value rest IH]; intros avg; simpl.
  - reflexivity.
  - rewrite IH. reflexivity.
Qed.

Lemma calculate_ema_short series period :
  (len series < period)%Z -> calculate_ema series period = Ok None.
Proof.
  intros Hlt. unfold calculate_ema.
  destruct (Z.ltb_spec (len series) period); [reflexivity|lia].
Qed.

Lemma calculate_ema_long first rest period :
  (0 < period)%Z -> (period <= len (first :: rest))%Z ->
  calculate_ema (first :: rest) period =
    Ok (Some (ema_recurrence (div (of_int 2) (of_int (period + 1)))
                first rest)).
Proof.
  intros Hpos Hle. unfold calculate_ema, int_truediv.
  destruct (Z.ltb_spec (len (first :: rest)) period); [lia|].
  destruct (Z.eqb_spec (period + 1) 0); [lia|].
  cbn [bind]. rewrite iloc_first. cbn [bind].
  rewrite iloc_from_1, ema_loop_recurrence. reflexivity.
Qed.

(** A series no shorter than a positive period has a first bar. *)
Lemma series_nonempty series period :
  (0 < period)%Z -> (period <= len series)%Z ->
  exists first rest, series = first :: rest.
Proof.
  intros Hpos Hle. destruct series as [|first rest].
  - unfold len in Hle. simpl in Hle. lia.
  - now exists first, rest.
Qed.

(** A value that one update leaves alone survives the whole loop. *)
Lemma ema_recurrence_fixed (m v : T) rest :
  ema_step m v v = v ->
  (forall x, In x rest -> x = v) ->
  ema_recurrence m v rest = v.
Proof.
  intros Hfix. induction rest as [|x rest IH]; intros Hall; simpl.
  - reflexivity.
  - rewrite (Hall x (or_introl eq_refl)).
    unfold ema_step in Hfix. rewrite Hfix.
    apply IH. intros y Hy. apply Hall. now right.
Qed.

Lemma calculate_ema_total series period :
  (0 < period)%Z -> exists r, calculate_ema series period = Ok r.
Proof.
  intros Hpos.
  destruct (Z.lt_ge_cases (len series) period) as [Hlt|Hge].
  - exists None. now apply calculate_ema_short.
  - destruct (series_nonempty series period Hpos Hge) as (first & rest & ->).
    eexists. now apply calculate_ema_long.
Qed.

End EmaFacts.

(** In exact arithmetic one update of [v] towards [v] is [v]. *)
Lemma ema_step_real_fixed (m v : R) : ema_step m v v = v.
Proof. unfold ema_step; simpl. ring. Qed.

(** C1.  For a positive period, [calculate_ema] answers [None] on a series
    shorter than the period; otherwise it seeds the average with the first
    element of the whole series and runs
    [avg = value * m + avg * (1 - m)], [m = 2 / (period + 1)], over the
    remaining elements in order, returning the last average unrounded.  In
    binary64 the series [100, 101, 99, 105, 102] with period 3 gives exactly
    102.1875. *)
Theorem calculate_ema_spec :
  (forall (T : Type) (N : Number T) (series : list T) (period : Z),
      (0 < period)%Z ->
      ((len series < period)%Z -> calculate_ema series period = Ok None) /\
      ((period <= len series)%Z ->
       exists first rest,
         series = first :: rest /\
         calculate_ema series period =
           Ok (Some (ema_recurrence (div (of_int 2) (of_int (period + 1)))
                       first rest)))) /\
  calculate_ema [100; 101; 99; 105; 102]%float 3 = Ok (Some 102.1875%float).
Proof.
  split.
  - intros T N series period Hpos. split.
    + apply calculate_ema_short.
    + intros Hle.
      destruct (series_nonempty series period Hpos Hle) as (first & rest & ->).
      exists first, rest. split; [reflexivity|].
      now apply calculate_ema_long.
  - vm_compute. reflexivity.
Qed.

(** Two and three bars against period 3. *)
Lemma calculate_ema_spec_witness :
  calculate_ema [100; 101]%float 3 = Ok None /\
  exists first rest,
    [100; 101; 99]%float = first :: rest /\
    calculate_ema [100; 101; 99]%float 3 =
      Ok (Some (ema_recurrence (div (of_int 2) (of_int (3 + 1))) first rest)).
Proof.
  split.
  - apply (proj1 calculate_ema_spec float float64 [100; 101]%float 3%Z).
    + lia.
    + vm_compute. reflexivity.
  - apply (proj1 calculate_ema_spec float float64 [100; 101; 99]%float 3%Z).
    + lia.
    + vm_compute. discriminate.
Defined.

(** C9, the claim as stated fails in binary64: 34 bars at 100 with period 34
    (a period the report uses) average to 99.99999999999997, two units in the
    last place below 100. *)
Lemma calculate_ema_constant_counterexample :
  (34 <= len flat_100)%Z /\
  (forall x, In x flat_100 -> x = 100%float) /\
  calculate_ema flat_100 34 = Ok (Some 0x1.8fffffffffffep+6%float) /\
  PrimFloat.ltb 0x1.8fffffffffffep+6 100 = true /\
  calculate_ema flat_100 34 <> Ok (Some 100%float).
Proof.
  split; [vm_compute; discriminate|].
  split; [intros x Hx; apply repeat_spec in Hx; exact Hx|].
  split; [vm_compute; reflexivity|].
  split; [vm_compute; reflexivity|].
  intros E.
  apply (f_equal (fun r => match r with
                           | Ok (Some x) => PrimFloat.eqb x 100
                           | _ => true
                           end)) in E.
  vm_compute in E. discriminate.
Qed.

(** C9, amended.  On a series of length at least [period] whose elements all
    equal [v], [calculate_ema] returns [v] whenever one update maps [v] to
    itself, [v * m + v * (1 - m) = v] with [m = 2 / (period + 1)]; over the
    reals that equation always holds, so there the result is [v]
    unconditionally. *)
Theorem calculate_ema_constant :
  (forall (T : Type) (N : Number T) (v : T) (series : list T) (period : Z),
      (0 < period)%Z -> (period <= len series)%Z ->
      (forall x, In x series -> x = v) ->
      ema_step (div (of_int 2) (of_int (period + 1))) v v = v ->
      calculate_ema series period = Ok (Some v)) /\
  (forall (v : R) (series : list R) (period : Z),
      (0 < period)%Z -> (period <= len series)%Z ->
      (forall x, In x series -> x = v) ->
      calculate_ema series period = Ok (Some v)).
Proof.
  assert (G : forall (T : Type) (N : Number T) (v : T) (series : list T)
                     (period : Z),
             (0 < period)%Z -> (period <= len series)%Z ->
             (forall x, In x series -> x = v) ->
             ema_step (div (of_int 2) (of_int (period + 1))) v v = v ->
             calculate_ema series period = Ok (Some v)).
  { intros T N v series period Hpos Hle Hall Hfix.
    destruct (series_nonempty series period Hpos Hle) as (first & rest & ->).
    rewrite (calculate_ema_long _ _ _ Hpos Hle).
    rewrite (Hall first (or_introl eq_refl)).
    rewrite ema_recurrence_fixed; auto.
    intros x Hx. apply Hall. now right. }
  split; [exact G|].
  intros v series period Hpos Hle Hall.
  apply G; auto. apply ema_step_real_fixed.
Qed.

(** 100 is a fixed point of the binary64 update for period 3 (multiplier
    one half), and of every update over the reals. *)
Lemma calculate_ema_constant_witness :
  calculate_ema (repeat 100%float 34) 3 = Ok (Some 100%float) /\
  calculate_ema (repeat 100%R 34) 34 = Ok (Some 100%R).
Proof.
  split.
  - apply (proj1 calculate_ema_constant float float64 100%float
             (repeat 100%float 34) 3%Z).
    + lia.
    + vm_compute. discriminate.
    + intros x Hx. apply repeat_spec in Hx. exact Hx.
    + vm_compute. reflexivity.
  - apply (proj2 calculate_ema_constant 100%R (repeat 100%R 34) 34%Z).
    + lia.
    + vm_compute. discriminate.
    + intros x Hx. apply repeat_spec in Hx. exact Hx.
Defined.

(** ** Comparisons, rounding and angles over the reals *)

Lemma Rltb_spec (x y : R) : reflect (x < y) (Rltb x y).
Proof. unfold Rltb. destruct (Rlt_dec x y); now constructor. Qed.

Lemma Reqb_spec (x y : R) : reflect (x = y) (Reqb x y).
Proof. unfold Reqb. destruct (Req_dec_T x y); now constructor. Qed.

Ltac real_cases :=
  repeat match goal with
         | |- context [Rltb ?a ?b] => destruct (Rltb_spec a b)
         | |- context [Reqb ?a ?b] => destruct (Reqb_spec a b)
         end.

Lemma truediv_nonzero (x y : R) : y <> 0 -> truediv x y = Ok (x / y).
Proof. intros Hy. unfold truediv. real_cases; [contradiction|reflexivity]. Qed.

(** Clamping lands in the closed interval, whatever comes in. *)
Lemma clamp_bounds (r : R) : -5 <= py_max (-5) (py_min 5 r) <= 5.
Proof. unfold py_max, py_min. real_cases; lra. Qed.

(** Rounding moves at most one step up from the floor ... *)
Lemma round_half_even_floor (y : R) :
  round_half_even y = Zfloor y \/
  (round_half_even y = (Zfloor y + 1)%Z /\ 1 / 2 <= y - IZR (Zfloor y)).
Proof.
  unfold round_half_even. real_cases.
  - now left.
  - right. split; [reflexivity|lra].
  - destruct (Z.even (Zfloor y)); [now left|].
    right. split; [reflexivity|lra].
Qed.

(** ... so it never crosses an integer. *)
Lemma round_half_even_ge (k : Z) (y : R) :
  IZR k <= y -> (k <= round_half_even y)%Z.
Proof.
  intros Hk. apply Zfloor_lub in Hk.
  destruct (round_half_even_floor y) as [->|[-> _]]; lia.
Qed.

Lemma round_half_even_le (k : Z) (y : R) :
  y <= IZR k -> (round_half_even y <= k)%Z.
Proof.
  intros Hk. pose proof (Zfloor_bound y) as [Hlo Hhi].
  assert (Hn : (Zfloor y <= k)%Z) by (apply le_IZR; lra).
  destruct (round_half_even_floor y) as [->|[-> Hd]]; [exact Hn|].
  assert (Zfloor y <> k) by (intros E; rewrite E in Hd; lra).
  lia.
Qed.

(** Anything strictly within half a unit of [k] rounds to [k]. *)
Lemma round_half_even_near (k : Z) (y : R) :
  IZR k - 1 / 2 < y < IZR k + 1 / 2 -> round_half_even y = k.
Proof.
  intros [Hlo Hhi]. pose proof (Zfloor_bound y) as [Flo Fhi].
  assert (Hn1 : (Zfloor y < k + 1)%Z)
    by (apply lt_IZR; rewrite plus_IZR; lra).
  assert (Hn2 : (k < Zfloor y + 2)%Z)
    by (apply lt_IZR; rewrite plus_IZR; lra).
  destruct (Z.eq_dec (Zfloor y) k) as [E|NE].
  - destruct (round_half_even_floor y) as [->|[_ Hd]]; [exact E|].
    rewrite E in Hd. lra.
  - assert (E : Zfloor y = (k - 1)%Z) by lia.
    unfold round_half_even. rewrite E, minus_IZR.
    real_cases; try lra; lia.
Qed.

Lemma round_half_even_IZR (k : Z) : round_half_even (IZR k) = k.
Proof. apply round_half_even_near. lra. Qed.

(** [round(x, 2)] of a number with two decimals is that number. *)
Lemma py_round_2_exact (k : Z) : py_round (IZR k / 100) 2 = IZR k / 100.
Proof.
  unfold py_round. simpl pow.
  replace (IZR k / 100 * (10 * (10 * 1))) with (IZR k) by field.
  rewrite round_half_even_IZR. field.
Qed.

(** [round(x, 2)] stays between any two two-decimal numbers that enclose
    [x]. *)
Lemma py_round_2_between (lo hi : Z) (x : R) :
  IZR lo / 100 <= x <= IZR hi / 100 ->
  IZR lo / 100 <= py_round x 2 <= IZR hi / 100.
Proof.
  intros [Hlo Hhi]. unfold py_round. simpl pow.
  assert (H1 : (lo <= round_half_even (x * (10 * (10 * 1))))%Z)
    by (apply round_half_even_ge; lra).
  assert (H2 : (round_half_even (x * (10 * (10 * 1))) <= hi)%Z)
    by (apply round_half_even_le; lra).
  apply IZR_le in H1, H2. lra.
Qed.

Lemma py_round_2_near (k : Z) (x : R) :
  IZR k - 1 / 2 < x * 100 < IZR k + 1 / 2 -> py_round x 2 = IZR k / 100.
Proof.
  intros Hx. unfold py_round. simpl pow.
  rewrite (round_half_even_near k); [field|lra].
Qed.

(** The angle is in [(-PI, PI]]. *)
Lemma atan2_range (y x : R) : - PI < atan2 y x <= PI.
Proof.
  pose proof PI_RGT_0 as Hpi. pose proof (atan_bound (y / x)) as [Alo Ahi].
  unfold atan2. real_cases; try lra.
  - assert (0 < y / x).
    { replace (y / x) with ((- y) * / (- x)) by (field; lra).
      apply Rmult_lt_0_compat; [lra|]. apply Rinv_0_lt_compat. lra. }
    pose proof (atan_increasing 0 (y / x) ltac:(assumption)) as Hinc.
    rewrite atan_0 in Hinc. lra.
  - assert (Hle : y / x <= 0).
    { replace (y / x) with (- (y * / (- x))) by (field; lra).
      assert (0 <= y * / (- x)); [|lra].
      apply Rmult_le_pos; [lra|]. apply Rlt_le, Rinv_0_lt_compat. lra. }
    assert (atan (y / x) <= 0); [|lra].
    destruct Hle as [Hlt|Heq].
    + pose proof (atan_increasing _ _ Hlt) as Hinc.
      rewrite atan_0 in Hinc. lra.
    + rewrite Heq, atan_0. lra.
Qed.

Lemma degrees_PI_multiple (c : R) : degrees (c * PI) = c * 180.
Proof. unfold degrees. field. apply PI_neq0. Qed.

Lemma degrees_range (r : R) : - PI < r <= PI -> -180 < degrees r <= 180.
Proof.
  intros Hr. pose proof PI_RGT_0 as Hpi.
  replace r with (r / PI * PI) by (field; lra).
  rewrite degrees_PI_multiple.
  assert (-1 < r / PI <= 1); [|lra].
  split.
  - apply Rmult_lt_reg_r with PI; [lra|].
    replace (r / PI * PI) with r by (field; lra). lra.
  - apply Rmult_le_reg_r with PI; [lra|].
    replace (r / PI * PI) with r by (field; lra). lra.
Qed.

(** [atan] lies below the identity on the positive axis. *)
Lemma atan_le_id (x : R) : 0 < x -> atan x <= x.
Proof.
  intros Hx.
  destruct (MVT_cor2 atan (fun c => / (1 + c ^ 2)) 0 x Hx
              (fun c _ => derivable_pt_lim_atan c)) as (c & Hc & _).
  rewrite atan_0 in Hc.
  assert (Hinv : / (1 + c ^ 2) <= 1).
  { rewrite <- Rinv_1 at 2. apply Rinv_le_contravar; [lra|].
    pose proof (pow2_ge_0 c). lra. }
  assert (atan x = / (1 + c ^ 2) * x) by lra.
  nra.
Qed.

Lemma PI_gt_3 : 3 < PI.
Proof. pose proof PI2_3_2. lra. Qed.

Lemma py_round_2_int (k : Z) : py_round (IZR k) 2 = IZR k.
Proof.
  replace (IZR k) with (IZR (k * 100) / 100) by (rewrite mult_IZR; field).
  apply py_round_2_exact.
Qed.

(** ** [calc_theta_from_flow] *)

Lemma theta_short (prices : list R) :
  (len prices < 2)%Z -> calc_theta_from_flow prices = Ok 0.
Proof.
  intros Hlt. unfold calc_theta_from_flow.
  destruct (Z.ltb_spec (len prices) 2); [reflexivity|lia].
Qed.

(** With two bars or more, the angle comes from the last two. *)
Lemma theta_last_two (s : list R) (prev current : R) :
  calc_theta_from_flow (s ++ [prev; current]) =
    Ok (py_round (degrees (atan2 (current - prev) prev)) 2).
Proof.
  unfold calc_theta_from_flow.
  pose proof (len_nonneg s) as Hs.
  destruct (Z.ltb_spec (len (s ++ [prev; current])) 2) as [Hlt|_].
  { rewrite len_app in Hlt. change (len [prev; current]) with 2%Z in Hlt.
    lia. }
  rewrite iloc_last2, iloc_second_last. reflexivity.
Qed.

Lemma theta_pair (prev current : R) :
  calc_theta_from_flow [prev; current] =
    Ok (py_round (degrees (atan2 (current - prev) prev)) 2).
Proof. exact (theta_last_two [] prev current). Qed.

Lemma theta_cases (prices : list R) :
  calc_theta_from_flow prices = Ok 0 \/
  exists y x,
    calc_theta_from_flow prices = Ok (py_round (degrees (atan2 y x)) 2).
Proof.
  destruct (Z.lt_ge_cases (len prices) 2) as [Hlt|Hge].
  - left. now apply theta_short.
  - right. destruct (two_last prices) as (s & prev & current & ->); [lia|].
    exists (current - prev), prev. apply theta_last_two.
Qed.

Lemma theta_angle_bounds (y x : R) :
  -180 <= py_round (degrees (atan2 y x)) 2 <= 180.
Proof.
  pose proof (degrees_range _ (atan2_range y x)) as Hd.
  pose proof (py_round_2_between (-18000) 18000 (degrees (atan2 y x))) as Hr.
  lra.
Qed.

(** The angle of a flat last bar: north for a positive level, a half turn
    for a negative one. *)
Lemma atan2_flat (x : R) :
  (0 < x -> atan2 (x - x) x = 0) /\ (x < 0 -> atan2 (x - x) x = PI).
Proof.
  assert (E : (x - x) / x = 0) by (unfold Rdiv; ring).
  unfold atan2. rewrite E, atan_0.
  split; intros Hx; real_cases; lra.
Qed.

(** The angle on the vertical axis. *)
Lemma atan2_vertical (y : R) :
  (0 < y -> atan2 y 0 = PI / 2) /\
  (y < 0 -> atan2 y 0 = - (PI / 2)) /\
  (y = 0 -> atan2 y 0 = 0).
Proof.
  unfold atan2. repeat split; intros Hy; real_cases; lra.
Qed.

(** C5, the claim as stated fails for a negative level: two equal bars at
    [-1] give a half turn, not [0]. *)
Lemma theta_flat_counterexample :
  (-1 <> 0) /\ calc_theta_from_flow [-1; -1] = Ok 180 /\
  calc_theta_from_flow [-1; -1] <> Ok 0.
Proof.
  assert (E : calc_theta_from_flow [-1; -1] = Ok 180).
  { rewrite theta_pair.
    rewrite (proj2 (atan2_flat (-1))) by lra.
    replace PI with (1 * PI) by ring. rewrite degrees_PI_multiple.
    replace (1 * 180) with (IZR 180) by ring.
    now rewrite py_round_2_int. }
  split; [lra|]. split; [exact E|].
  rewrite E. intros H. inversion H. lra.
Qed.

(** C5, amended.  On two equal bars [x, x], theta is [0] for every positive
    [x]; for a negative [x] it is [180]. *)
Theorem theta_flat (x : R) :
  (0 < x -> calc_theta_from_flow [x; x] = Ok 0) /\
  (x < 0 -> calc_theta_from_flow [x; x] = Ok 180).
Proof.
  rewrite theta_pair. split; intros Hx.
  - rewrite (proj1 (atan2_flat x)) by exact Hx.
    replace 0 with (0 * PI) at 1 by ring. rewrite degrees_PI_multiple.
    replace (0 * 180) with (IZR 0) by ring.
    now rewrite py_round_2_int.
  - rewrite (proj2 (atan2_flat x)) by exact Hx.
    replace PI with (1 * PI) by ring. rewrite degrees_PI_multiple.
    replace (1 * 180) with (IZR 180) by ring.
    now rewrite py_round_2_int.
Qed.

(** A flat bar at 100 and at -100. *)
Lemma theta_flat_witness :
  calc_theta_from_flow [100; 100] = Ok 0 /\
  calc_theta_from_flow [-100; -100] = Ok 180.
Proof.
  split.
  - apply (proj1 (theta_flat 100)). lra.
  - apply (proj2 (theta_flat (-100))). lra.
Defined.

(** C6, the claim as stated fails when the last bar is [0] as well: the
    change is [0], and [atan2(0, 0)] is [0], neither [90] nor [-90]. *)
Lemma theta_prev_zero_counterexample :
  (2 <= len [0; 0])%Z /\ iloc [0; 0] (-2) = Ok 0 /\
  calc_theta_from_flow [0; 0] = Ok 0 /\
  calc_theta_from_flow [0; 0] <> Ok 90 /\
  calc_theta_from_flow [0; 0] <> Ok (-90).
Proof.
  assert (E : calc_theta_from_flow [0; 0] = Ok 0).
  { rewrite theta_pair.
    rewrite (proj2 (proj2 (atan2_vertical (0 - 0)))) by lra.
    replace 0 with (0 * PI) at 1 by ring. rewrite degrees_PI_multiple.
    replace (0 * 180) with (IZR 0) by ring.
    now rewrite py_round_2_int. }
  split; [vm_compute; discriminate|].
  split; [exact (iloc_second_last [] 0 0)|].
  split; [exact E|].
  rewrite E. split; intros H; inversion H; lra.
Qed.

(** C6, amended.  On a series of at least two bars whose second-to-last bar
    is [0], theta raises nothing; it is [90] when the last bar is positive
    and [-90] when it is negative.  For a last bar that is [0] as well the
    result is neither, and nothing more is stated: there the program's
    answer depends on the sign of the floating-point zero ([0] after [+0.0],
    [180] after [-0.0]), which the reals do not have. *)
Theorem theta_prev_zero (prices : list R) (current : R) :
  (2 <= len prices)%Z ->
  iloc prices (-2) = Ok 0 ->
  iloc prices (-1) = Ok current ->
  (exists theta, calc_theta_from_flow prices = Ok theta) /\
  (0 < current -> calc_theta_from_flow prices = Ok 90) /\
  (current < 0 -> calc_theta_from_flow prices = Ok (-90)).
Proof.
  intros Hlen Hprev Hcur.
  destruct (two_last prices Hlen) as (s & x & y & ->).
  rewrite iloc_second_last in Hprev. rewrite iloc_last2 in Hcur.
  inversion Hprev; inversion Hcur; subst x y. clear Hprev Hcur.
  rewrite theta_last_two.
  destruct (atan2_vertical (current - 0)) as (Hup & Hdown & _).
  split; [eexists; reflexivity|]. split; intros Hc.
  - rewrite Hup by lra.
    replace (PI / 2) with (1 / 2 * PI) by field.
    rewrite degrees_PI_multiple.
    replace (1 / 2 * 180) with (IZR 90) by field.
    now rewrite py_round_2_int.
  - rewrite Hdown by lra.
    replace (- (PI / 2)) with (- (1 / 2) * PI) by field.
    rewrite degrees_PI_multiple.
    replace (- (1 / 2) * 180) with (IZR (-90)) by field.
    now rewrite py_round_2_int.
Qed.

(** A bounce from 0 up to 3, and a drop from 0 to -3. *)
Lemma theta_prev_zero_witness :
  calc_theta_from_flow [7; 0; 3] = Ok 90 /\
  calc_theta_from_flow [7; 0; -3] = Ok (-90).
Proof.
  split.
  - apply (theta_prev_zero [7; 0; 3] 3).
    + vm_compute. discriminate.
    + exact (iloc_second_last [7] 0 3).
    + exact (iloc_last2 [7] 0 3).
    + lra.
  - apply (theta_prev_zero [7; 0; -3] (-3)).
    + vm_compute. discriminate.
    + exact (iloc_second_last [7] 0 (-3)).
    + exact (iloc_last2 [7] 0 (-3)).
    + lra.
Defined.

(** C8, the claim as stated fails at the open end: a small drop on a negative
    level gives an angle just above [-180] that rounds to [-180] itself. *)
Lemma theta_range_counterexample :
  calc_theta_from_flow [-20000; -20001] = Ok (-180) /\
  ~ (-180 < -180 <= 180).
Proof.
  split; [|lra].
  rewrite theta_pair. f_equal.
  replace (-180) with (IZR (-18000) / 100) by lra.
  apply py_round_2_near.
  replace (-20001 - -20000) with (-1) by lra.
  unfold atan2. real_cases; try lra.
  replace (-1 / -20000) with (1 / 20000) by field.
  pose proof (atan_le_id (1 / 20000) ltac:(lra)) as Hup.
  pose proof (atan_increasing 0 (1 / 20000) ltac:(lra)) as Hlo.
  rewrite atan_0 in Hlo.
  pose proof PI_gt_3 as Hpi.
  set (a := atan (1 / 20000)) in *.
  replace (a - PI) with ((a / PI - 1) * PI) by (field; lra).
  rewrite degrees_PI_multiple.
  assert (0 < a / PI < 1 / 60000); [|lra].
  split.
  - apply Rdiv_lt_0_compat; lra.
  - apply Rmult_lt_reg_r with PI; [lra|].
    replace (a / PI * PI) with a by (field; lra). nra.
Qed.

(** C8, amended.  Theta always lies in the closed interval [[-180, 180]]. *)
Theorem theta_range (prices : list R) :
  exists theta,
    calc_theta_from_flow prices = Ok theta /\ -180 <= theta <= 180.
Proof.
  destruct (theta_cases prices) as [E|(y & x & E)]; rewrite E.
  - exists 0. split; [reflexivity|lra].
  - eexists. split; [reflexivity|]. apply theta_angle_bounds.
Qed.

(** ** Sorting and the median *)

Lemma insert_perm (x : R) (l : list R) : Permutation (insert x l) (x :: l).
Proof.
  induction l as [|y l IH]; simpl.
  - apply Permutation_refl.
  - destruct (Rle_dec x y).
    + apply Permutation_refl.
    + apply perm_trans with (y :: x :: l).
      * now apply perm_skip.
      * apply perm_swap.
Qed.

Lemma sort_perm (l : list R) : Permutation (sort l) l.
Proof.
  induction l as [|x l IH]; simpl.
  - apply perm_nil.
  - apply perm_trans with (x :: sort l).
    + apply insert_perm.
    + now apply perm_skip.
Qed.

Lemma length_sort (l : list R) : length (sort l) = length l.
Proof. apply Permutation_length, sort_perm. Qed.

Lemma insert_ordered (x : R) (l : list R) :
  StronglySorted Rle l -> StronglySorted Rle (insert x l).
Proof.
  induction 1 as [|y l Hl IH Hy]; simpl.
  - repeat constructor.
  - destruct (Rle_dec x y) as [Hxy|Hxy].
    + constructor.
      * now constructor.
      * constructor; [exact Hxy|].
        apply Forall_impl with (P := Rle y); [|exact Hy].
        intros z Hz. lra.
    + constructor; [exact IH|].
      apply (Permutation_Forall (Permutation_sym (insert_perm x l))).
      constructor; [lra|exact Hy].
Qed.

Lemma sort_ordered (l : list R) : StronglySorted Rle (sort l).
Proof.
  induction l as [|x l IH]; simpl.
  - constructor.
  - now apply insert_ordered.
Qed.

(** Two ascending arrangements of the same values are the same list. *)
Lemma ordered_perm_unique (l1 l2 : list R) :
  StronglySorted Rle l1 -> StronglySorted Rle l2 -> Permutation l1 l2 ->
  l1 = l2.
Proof.
  intros H1. revert l2.
  induction H1 as [|a l1 Hl1 IH Ha]; intros l2 H2 Hp.
  - apply Permutation_nil in Hp. now subst.
  - destruct H2 as [|b l2 Hl2 Hb].
    + apply Permutation_sym, Permutation_nil in Hp. discriminate.
    + assert (Hab : a = b).
      { assert (Hin1 : In a (b :: l2))
          by (apply (Permutation_in _ Hp); now left).
        assert (Hin2 : In b (a :: l1))
          by (apply (Permutation_in _ (Permutation_sym Hp)); now left).
        rewrite Forall_forall in Ha, Hb.
        destruct Hin1 as [->|Hin1]; [reflexivity|].
        destruct Hin2 as [->|Hin2]; [reflexivity|].
        apply Rle_antisym; auto. }
      subst b. f_equal. apply IH; [exact Hl2|].
      now apply Permutation_cons_inv with a.
Qed.

Lemma sort_perm_invariant (l1 l2 : list R) :
  Permutation l1 l2 -> sort l1 = sort l2.
Proof.
  intros Hp. apply ordered_perm_unique; try apply sort_ordered.
  apply perm_trans with l1; [apply sort_perm|].
  apply perm_trans with l2; [exact Hp|].
  apply Permutation_sym, sort_perm.
Qed.

Lemma median_perm_invariant (l1 l2 : list R) :
  Permutation l1 l2 -> series_median l1 = series_median l2.
Proof.
  intros Hp. unfold series_median.
  now rewrite (sort_perm_invariant l1 l2 Hp).
Qed.

Lemma abs_deviations_perm (l1 l2 : list R) (m : R) :
  Permutation l1 l2 ->
  Permutation (abs_deviations l1 m) (abs_deviations l2 m).
Proof.
  intros Hp. unfold abs_deviations. now do 2 apply Permutation_map.
Qed.

Lemma len_abs_deviations (l : list R) (m : R) :
  len (abs_deviations l m) = len l.
Proof. unfold len, abs_deviations. now rewrite !length_map. Qed.

(** Every non-empty series has a median. *)
Lemma median_defined (l : list R) :
  (0 < len l)%Z -> exists m, series_median l = Ok m.
Proof.
  intros Hlen. unfold series_median. rewrite length_sort.
  destruct (Nat.eqb_spec (length l) 0) as [E|_].
  - unfold len in Hlen. lia.
  - destruct (Nat.even (length l)); eexists; reflexivity.
Qed.

(** ** [calc_z] *)

Lemma calc_z_short (prices : list R) (current : R) :
  (len prices < 21)%Z -> calc_z prices current = Ok 0.
Proof.
  intros Hlt. unfold calc_z.
  destruct (Z.ltb_spec (len prices) 21); [reflexivity|lia].
Qed.

Lemma calc_z_long (prices : list R) (current median mad : R) :
  (21 <= len prices)%Z ->
  series_median prices = Ok median ->
  series_median (abs_deviations prices median) = Ok mad ->
  calc_z prices current =
    if Reqb mad 0 then Ok 0
    else Ok (py_round ((current - median) / mad) 2).
Proof.
  intros Hlen Hmed Hmad. unfold calc_z.
  destruct (Z.ltb_spec (len prices) 21); [lia|].
  rewrite Hmed. cbn [bind]. rewrite Hmad. cbn [bind].
  destruct (Reqb_spec mad 0) as [E|NE]; [reflexivity|].
  rewrite truediv_nonzero by exact NE. reflexivity.
Qed.

(** Past the length guard both medians exist. *)
Lemma medians_defined (series : list R) :
  (0 < len series)%Z ->
  exists median mad,
    series_median series = Ok median /\
    series_median (abs_deviations series median) = Ok mad.
Proof.
  intros Hlen.
  destruct (median_defined series Hlen) as (median & Hmed).
  destruct (median_defined (abs_deviations series median)) as (mad & Hmad).
  { now rewrite len_abs_deviations. }
  now exists median, mad.
Qed.

Lemma calc_z_total (prices : list R) (current : R) :
  exists z, calc_z prices current = Ok z.
Proof.
  destruct (Z.lt_ge_cases (len prices) 21) as [Hlt|Hge].
  - exists 0. now apply calc_z_short.
  - destruct (medians_defined prices) as (median & mad & Hmed & Hmad);
      [lia|].
    rewrite (calc_z_long prices current median mad Hge Hmed Hmad).
    destruct (Reqb mad 0); eexists; reflexivity.
Qed.

(** The real-number [calc_z] is the instance of the generic one. *)
Lemma calc_z_real_instance (prices : list R) (current : R) :
  calc_z prices current = Generic.calc_z prices current.
Proof. reflexivity. Qed.

Lemma float_median_defined (series : list float) :
  exists m, Generic.median_of series = Ok m.
Proof.
  unfold Generic.median_of; simpl. unfold Generic.float_median.
  cbv zeta. destruct (_ =? 0)%nat; [eexists; reflexivity|].
  destruct (Nat.even _); eexists; reflexivity.
Qed.

(** C2.  In every arithmetic, binary64 and the reals among them, [calc_z] is
    [0] on fewer than 21 bars.  Otherwise, with [median] the median of the
    whole series and [mad] the median of [|x - median|] over the whole
    series, it is [0] when [mad == 0] and [(current - median) / mad] rounded
    to two decimals when not: the quotient and the rounding are the
    arithmetic's own.  In binary64 the median of a series always exists, so
    there one of the two cases applies. *)
Theorem calc_z_spec :
  (forall (T : Type) (N : Number T) (L : Generic.Library T)
          (prices : list T) (current : T),
      ((len prices < 21)%Z ->
       Generic.calc_z prices current = Ok (of_int 0)) /\
      ((21 <= len prices)%Z ->
       forall median mad : T,
         Generic.median_of prices = Ok median ->
         Generic.median_of
           (map (fun x => Generic.abs_of (sub x median)) prices) = Ok mad ->
         (Generic.eq_test mad (of_int 0) = true ->
          Generic.calc_z prices current = Ok (of_int 0)) /\
         (Generic.eq_test mad (of_int 0) = false ->
          Generic.calc_z prices current
            = Ok (Generic.round_to (div (sub current median) mad) 2)))) /\
  (forall series : list float,
      exists median, Generic.median_of series = Ok median).
Proof.
  split.
  - intros T N L prices current. split.
    + intros Hlt. unfold Generic.calc_z.
      destruct (Z.ltb_spec (len prices) 21); [reflexivity|lia].
    + intros Hge median mad Hmed Hmad. unfold Generic.calc_z.
      destruct (Z.ltb_spec (len prices) 21); [lia|].
      rewrite Hmed. cbn [bind]. rewrite map_map, Hmad. cbn [bind].
      split; intros E; rewrite E; [reflexivity|].
      unfold Generic.checked_div. rewrite E. reflexivity.
  - apply float_median_defined.
Qed.

(** Three bars in binary64, and the tie series: there the score
    [6.125 / 5] is [1.2250000000000001] and rounds to [1.23]. *)
Lemma calc_z_spec_witness :
  Generic.calc_z [50; 51; 49]%float 49%float = Ok 0%float /\
  Generic.calc_z tie_series 6.125%float = Ok 0x1.3ae147ae147aep+0%float.
Proof.
  split.
  - apply (proj1 (proj1 calc_z_spec float float64 Generic.float_library
                    [50; 51; 49]%float 49%float)).
    vm_compute. reflexivity.
  - refine (proj2 (proj2 (proj1 calc_z_spec float float64
                            Generic.float_library tie_series 6.125%float)
                     _ 0%float 5%float _ _) _).
    + vm_compute. discriminate.
    + vm_compute. reflexivity.
    + vm_compute. reflexivity.
    + vm_compute. reflexivity.
Defined.

(** C10.  [calc_z] does not depend on the order of the series. *)
Theorem calc_z_perm_invariant (prices prices' : list R) (current : R) :
  Permutation prices prices' ->
  calc_z prices current = calc_z prices' current.
Proof.
  intros Hp. unfold calc_z.
  assert (Hlen : len prices = len prices')
    by (unfold len; now rewrite (Permutation_length Hp)).
  rewrite Hlen, (median_perm_invariant prices prices' Hp).
  destruct (len prices' <? 21)%Z; [reflexivity|].
  destruct (series_median prices') as [median|e]; [|reflexivity].
  cbn [bind].
  now rewrite (median_perm_invariant _ _
                 (abs_deviations_perm prices prices' median Hp)).
Qed.

(** The first two of 21 bars swapped. *)
Lemma calc_z_perm_invariant_witness :
  calc_z (3 :: 1 :: repeat 2 19) 2 = calc_z (1 :: 3 :: repeat 2 19) 2.
Proof.
  apply (calc_z_perm_invariant (3 :: 1 :: repeat 2 19)
           (1 :: 3 :: repeat 2 19) 2).
  apply perm_swap.
Defined.

(** ** [rolling_z] and [calc_r] *)

Lemma rolling_z_short (series : list R) (lookback : Z) :
  (len series < lookback)%Z -> rolling_z series lookback = Ok None.
Proof.
  intros Hlt. unfold rolling_z.
  destruct (Z.ltb_spec (len series) lookback); [reflexivity|lia].
Qed.

(** With enough bars, the helper is undefined exactly on a zero MAD. *)
Lemma rolling_z_long (series : list R) (lookback : Z)
      (median mad last : R) :
  (lookback <= len series)%Z ->
  series_median (iloc_from series (- lookback)) = Ok median ->
  series_median (abs_deviations (iloc_from series (- lookback)) median)
    = Ok mad ->
  iloc series (-1) = Ok last ->
  rolling_z series lookback =
    if Reqb mad 0 then Ok None else Ok (Some ((last - median) / mad)).
Proof.
  intros Hlen Hmed Hmad Hlast. unfold rolling_z.
  destruct (Z.ltb_spec (len series) lookback); [lia|].
  rewrite Hmed. cbn [bind]. rewrite Hmad. cbn [bind].
  destruct (Reqb_spec mad 0) as [E|NE]; [reflexivity|].
  rewrite Hlast. cbn [bind].
  rewrite truediv_nonzero by exact NE. reflexivity.
Qed.

(** What the helper reads from a series of at least [lookback] bars. *)
Lemma rolling_z_inputs (series : list R) (lookback : Z) :
  (0 < lookback <= len series)%Z ->
  exists median mad last,
    series_median (iloc_from series (- lookback)) = Ok median /\
    series_median (abs_deviations (iloc_from series (- lookback)) median)
      = Ok mad /\
    iloc series (-1) = Ok last.
Proof.
  intros Hlen.
  destruct (medians_defined (iloc_from series (- lookback)))
    as (median & mad & Hmed & Hmad).
  { rewrite len_iloc_from_tail; lia. }
  destruct (iloc_in_range series (-1)) as (last & Hlast); [lia|].
  now exists median, mad, last.
Qed.

Lemma rolling_z_total (series : list R) (lookback : Z) :
  (0 < lookback)%Z -> exists z, rolling_z series lookback = Ok z.
Proof.
  intros Hpos.
  destruct (Z.lt_ge_cases (len series) lookback) as [Hlt|Hge].
  - exists None. now apply rolling_z_short.
  - destruct (rolling_z_inputs series lookback)
      as (median & mad & last & Hmed & Hmad & Hlast); [lia|].
    rewrite (rolling_z_long series lookback median mad last
               Hge Hmed Hmad Hlast).
    destruct (Reqb mad 0); eexists; reflexivity.
Qed.

Lemma calc_r_short (prices : list R) :
  (len prices < 35)%Z -> calc_r prices = Ok 1.
Proof.
  intros Hlt. unfold calc_r.
  destruct (Z.ltb_spec (len prices) 35); [reflexivity|lia].
Qed.

(** Past the length guard the test [len(prices) > 34] always succeeds. *)
Lemma z_prev_of_long (prices : list R) :
  (35 <= len prices)%Z ->
  z_prev_of prices = rolling_z (iloc_upto prices (-1)) 34.
Proof.
  intros Hlen. unfold z_prev_of.
  destruct (Z.ltb_spec 34 (len prices)); [reflexivity|lia].
Qed.

Lemma calc_r_long (prices : list R) (z_curr z_prev : option R) :
  (35 <= len prices)%Z ->
  rolling_z prices 34 = Ok z_curr ->
  z_prev_of prices = Ok z_prev ->
  calc_r prices =
    match z_curr, z_prev with
    | Some zc, Some zp =>
        if Reqb zp 0 then Ok 1
        else Ok (py_round (py_max (-5) (py_min 5 (zc / zp))) 2)
    | _, _ => Ok 1
    end.
Proof.
  intros Hlen Hc Hp. unfold calc_r.
  destruct (Z.ltb_spec (len prices) 35); [lia|].
  rewrite Hc. cbn [bind]. rewrite Hp. cbn [bind].
  destruct z_curr as [zc|], z_prev as [zp|]; try reflexivity.
  destruct (Reqb_spec zp 0) as [E|NE]; [reflexivity|].
  rewrite truediv_nonzero by exact NE. reflexivity.
Qed.

Lemma clamp_round_bounds (r : R) :
  -5 <= py_round (py_max (-5) (py_min 5 r)) 2 <= 5.
Proof.
  pose proof (clamp_bounds r) as Hc.
  pose proof (py_round_2_between (-500) 500 (py_max (-5) (py_min 5 r))) as Hr.
  lra.
Qed.

Lemma calc_r_bounded (prices : list R) :
  exists r, calc_r prices = Ok r /\ -5 <= r <= 5.
Proof.
  destruct (Z.lt_ge_cases (len prices) 35) as [Hlt|Hge].
  - exists 1. split; [now apply calc_r_short|lra].
  - destruct (rolling_z_total prices 34) as (z_curr & Hc); [lia|].
    destruct (rolling_z_total (iloc_upto prices (-1)) 34) as (z_prev & Hp);
      [lia|].
    rewrite <- (z_prev_of_long prices Hge) in Hp.
    rewrite (calc_r_long prices z_curr z_prev Hge Hc Hp).
    destruct z_curr as [zc|], z_prev as [zp|];
      try (exists 1; split; [reflexivity|lra]).
    destruct (Reqb zp 0).
    + exists 1. split; [reflexivity|lra].
    + eexists. split; [reflexivity|]. apply clamp_round_bounds.
Qed.

(** C3.  [calc_r] always lies in [[-5, 5]], and is exactly [1] on fewer
    than 35 bars. *)
Theorem calc_r_range :
  (forall prices : list R,
      exists r, calc_r prices = Ok r /\ -5 <= r <= 5) /\
  (forall prices : list R, (len prices < 35)%Z -> calc_r prices = Ok 1).
Proof.
  split.
  - apply calc_r_bounded.
  - apply calc_r_short.
Qed.

(** 34 bars are one short of the guard. *)
Lemma calc_r_range_witness : calc_r (repeat 7 34) = Ok 1.
Proof.
  apply (proj2 calc_r_range (repeat 7 34)).
  vm_compute. reflexivity.
Defined.

(** *** A 35-bar series, bar by bar *)

Ltac ascending :=
  repeat (apply Sorted_cons || apply HdRel_cons
          || apply Sorted_nil || apply HdRel_nil);
  lra.

Ltac abs_value := unfold Rabs; destruct (Rcase_abs _); lra.

Lemma sort_of_perm (l l' : list R) :
  Permutation l l' -> Sorted Rle l' -> sort l = l'.
Proof.
  intros Hp Hs. apply ordered_perm_unique.
  - apply sort_ordered.
  - apply Sorted_StronglySorted; [exact Rle_trans|exact Hs].
  - apply perm_trans with l; [apply sort_perm|exact Hp].
Qed.

(** The median of a 34-bar window, read off an ascending arrangement. *)
Lemma median_34 (l l' : list R) :
  Permutation l l' -> Sorted Rle l' -> length l' = 34%nat ->
  series_median l = Ok ((nth 16 l' 0 + nth 17 l' 0) / 2).
Proof.
  intros Hp Hs Hlen. unfold series_median.
  rewrite (sort_of_perm l l' Hp Hs), Hlen. reflexivity.
Qed.

Lemma abs_deviations_app (l1 l2 : list R) (m : R) :
  abs_deviations (l1 ++ l2) m = abs_deviations l1 m ++ abs_deviations l2 m.
Proof. unfold abs_deviations. now rewrite !map_app. Qed.

Lemma abs_deviations_repeat (x : R) (n : nat) (m : R) :
  abs_deviations (repeat x n) m = repeat (Rabs (x - m)) n.
Proof. unfold abs_deviations. now rewrite !map_repeat. Qed.

(** The current window: bars 2 to 35. *)
Lemma step_series_curr_median :
  series_median (iloc_from step_series (-34)) = Ok 2.
Proof.
  change (iloc_from step_series (-34))
    with (repeat 0 16 ++ repeat 2 17 ++ [4]).
  rewrite (median_34 _ (repeat 0 16 ++ repeat 2 17 ++ [4])).
  - simpl nth. f_equal. lra.
  - apply Permutation_refl.
  - simpl. ascending.
  - reflexivity.
Qed.

Lemma step_series_curr_mad :
  series_median (abs_deviations (iloc_from step_series (-34)) 2) = Ok 1.
Proof.
  change (iloc_from step_series (-34))
    with (repeat 0 16 ++ repeat 2 17 ++ [4]).
  rewrite !abs_deviations_app, !abs_deviations_repeat.
  change (abs_deviations [4] 2) with [Rabs (4 - 2)].
  replace (Rabs (0 - 2)) with 2 by abs_value.
  replace (Rabs (2 - 2)) with 0 by abs_value.
  replace (Rabs (4 - 2)) with 2 by abs_value.
  rewrite (median_34 _ (repeat 0 17 ++ repeat 2 16 ++ [2])).
  - simpl nth. f_equal. lra.
  - apply Permutation_app_swap_app.
  - simpl. ascending.
  - reflexivity.
Qed.

Lemma step_series_z_curr : rolling_z step_series 34 = Ok (Some 2).
Proof.
  rewrite (rolling_z_long step_series 34 2 1 4).
  - destruct (Reqb_spec 1 0); [lra|]. do 2 f_equal. lra.
  - vm_compute. discriminate.
  - exact step_series_curr_median.
  - exact step_series_curr_mad.
  - reflexivity.
Qed.

(** The previous window: bars 1 to 34. *)
Lemma step_series_trimmed :
  iloc_upto step_series (-1) = repeat 0 17 ++ repeat 2 17.
Proof. reflexivity. Qed.

Lemma step_series_prev_median :
  series_median (iloc_from (repeat 0 17 ++ repeat 2 17) (-34)) = Ok 1.
Proof.
  change (iloc_from (repeat 0 17 ++ repeat 2 17) (-34))
    with (repeat 0 17 ++ repeat 2 17).
  rewrite (median_34 _ (repeat 0 17 ++ repeat 2 17)).
  - simpl nth. f_equal. lra.
  - apply Permutation_refl.
  - simpl. ascending.
  - reflexivity.
Qed.

Lemma step_series_prev_mad :
  series_median
    (abs_deviations (iloc_from (repeat 0 17 ++ repeat 2 17) (-34)) 1) = Ok 1.
Proof.
  change (iloc_from (repeat 0 17 ++ repeat 2 17) (-34))
    with (repeat 0 17 ++ repeat 2 17).
  rewrite !abs_deviations_app, !abs_deviations_repeat.
  replace (Rabs (0 - 1)) with 1 by abs_value.
  replace (Rabs (2 - 1)) with 1 by abs_value.
  rewrite (median_34 _ (repeat 1 17 ++ repeat 1 17)).
  - simpl nth. f_equal. lra.
  - apply Permutation_refl.
  - simpl. ascending.
  - reflexivity.
Qed.

Lemma step_series_z_prev : z_prev_of step_series = Ok (Some 1).
Proof.
  rewrite z_prev_of_long by (vm_compute; discriminate).
  rewrite step_series_trimmed.
  rewrite (rolling_z_long (repeat 0 17 ++ repeat 2 17) 34 1 1 2).
  - destruct (Reqb_spec 1 0); [lra|]. do 2 f_equal. lra.
  - vm_compute. discriminate.
  - exact step_series_prev_median.
  - exact step_series_prev_mad.
  - reflexivity.
Qed.

Lemma step_series_r : calc_r step_series = Ok 2.
Proof.
  rewrite (calc_r_long step_series (Some 2) (Some 1)).
  - destruct (Reqb_spec 1 0); [lra|]. f_equal.
    replace (2 / 1) with 2 by lra.
    unfold py_min. destruct (Rltb_spec 2 5); [|lra].
    unfold py_max. destruct (Rltb_spec (-5) 2); [|lra].
    apply (py_round_2_int 2).
  - vm_compute. discriminate.
  - exact step_series_z_curr.
  - exact step_series_z_prev.
Qed.

(** *** Where the reals and binary64 part

    On [tie_series] the score of 6.125 is the exact tie [1.225] over the
    reals and rounds to the even [1.22]; in binary64 the quotient is
    [1.2250000000000001] and rounds to [1.23].  Statements about the value
    of a rounded quotient are made on [Generic.calc_z] for this reason; the
    ranges, signs and defaults proved on the real instance do not depend on
    how a tie falls. *)

Lemma median_21 (l l' : list R) :
  Permutation l l' -> Sorted Rle l' -> length l' = 21%nat ->
  series_median l = Ok (nth 10 l' 0).
Proof.
  intros Hp Hs Hlen. unfold series_median.
  rewrite (sort_of_perm l l' Hp Hs), Hlen. reflexivity.
Qed.

Lemma round_half_even_tie (k : Z) :
  round_half_even (IZR k + 1 / 2) = if Z.even k then k else (k + 1)%Z.
Proof.
  assert (F : Zfloor (IZR k + 1 / 2) = k) by (apply Zfloor_eq; lra).
  unfold round_half_even. rewrite F.
  destruct (Rltb_spec (IZR k + 1 / 2 - IZR k) (1 / 2)); [lra|].
  destruct (Rltb_spec (1 / 2) (IZR k + 1 / 2 - IZR k)); [lra|].
  reflexivity.
Qed.

Lemma calc_z_tie_instances :
  calc_z tie_series_real (49 / 8) = Ok (122 / 100) /\
  Generic.calc_z tie_series 6.125%float = Ok 0x1.3ae147ae147aep+0%float.
Proof.
  split; [|vm_compute; reflexivity].
  rewrite (calc_z_long tie_series_real (49 / 8) 0 5).
  - destruct (Reqb_spec 5 0); [lra|]. f_equal.
    unfold py_round. simpl pow.
    replace ((49 / 8 - 0) / 5 * (10 * (10 * 1))) with (IZR 122 + 1 / 2)
      by field.
    rewrite round_half_even_tie. simpl Z.even. cbv iota. lra.
  - vm_compute. discriminate.
  - unfold tie_series_real.
    rewrite (median_21 _ (repeat (-5) 10 ++ [0] ++ repeat 5 10)).
    + reflexivity.
    + apply Permutation_refl.
    + simpl. ascending.
    + reflexivity.
  - unfold tie_series_real.
    rewrite !abs_deviations_app, !abs_deviations_repeat.
    change (abs_deviations [0] 0) with [Rabs (0 - 0)].
    replace (Rabs (-5 - 0)) with 5 by abs_value.
    replace (Rabs (0 - 0)) with 0 by abs_value.
    replace (Rabs (5 - 0)) with 5 by abs_value.
    rewrite (median_21 _ ([0] ++ repeat 5 10 ++ repeat 5 10)).
    + reflexivity.
    + apply Permutation_app_swap_app.
    + simpl. ascending.
    + reflexivity.
Qed.

(** C4, the claim as stated fails on exactly 35 bars: the trimmed series has
    34 bars, and [z_prev] is computed from them all the same; here it is
    [1], and the result is [2], not the default [1]. *)
Lemma calc_r_35_counterexample :
  len step_series = 35%Z /\
  len (iloc_upto step_series (-1)) = 34%Z /\
  z_prev_of step_series = Ok (Some 1) /\
  calc_r step_series = Ok 2 /\
  calc_r step_series <> Ok 1.
Proof.
  split; [reflexivity|]. split; [reflexivity|].
  split; [exact step_series_z_prev|]. split; [exact step_series_r|].
  rewrite step_series_r. intros E. apply Ok_inj in E. lra.
Qed.

(** C4, amended.  On a series of at least 35 bars [z_prev] is always
    computed: it is the rolling z-score of the series without its last bar,
    which still has at least 34 bars.  It is undefined exactly when the
    median absolute deviation of the 34 bars before the last one is zero,
    and whenever it is undefined the result is [1]. *)
Theorem calc_r_z_prev (prices : list R) :
  (35 <= len prices)%Z ->
  z_prev_of prices = rolling_z (iloc_upto prices (-1)) 34 /\
  (34 <= len (iloc_upto prices (-1)))%Z /\
  (exists median mad,
      let recent := iloc_from (iloc_upto prices (-1)) (-34) in
      series_median recent = Ok median /\
      series_median (abs_deviations recent median) = Ok mad /\
      (z_prev_of prices = Ok None <-> mad = 0)) /\
  (z_prev_of prices = Ok None -> calc_r prices = Ok 1).
Proof.
  intros Hlen.
  pose proof (z_prev_of_long prices Hlen) as Hz.
  assert (Hone : (1 <= len prices)%Z) by lia.
  pose proof (len_iloc_upto_drop_last prices Hone) as Htrim.
  split; [exact Hz|]. split; [lia|]. split.
  - destruct (rolling_z_inputs (iloc_upto prices (-1)) 34)
      as (median & mad & last & Hmed & Hmad & Hlast); [lia|].
    exists median, mad. cbv zeta.
    split; [exact Hmed|]. split; [exact Hmad|].
    rewrite Hz.
    assert (Hwin : (34 <= len (iloc_upto prices (-1)))%Z) by lia.
    rewrite (rolling_z_long _ 34 median mad last Hwin Hmed Hmad Hlast).
    destruct (Reqb_spec mad 0) as [E|NE]; split; intros H;
      try reflexivity; try assumption; try discriminate; contradiction.
  - intros Hnone.
    destruct (rolling_z_total prices 34) as (z_curr & Hc); [lia|].
    rewrite (calc_r_long prices z_curr None Hlen Hc Hnone).
    now destruct z_curr.
Qed.

(** The 35-bar series above passes the guard. *)
Lemma calc_r_z_prev_witness :
  z_prev_of step_series = rolling_z (iloc_upto step_series (-1)) 34 /\
  (34 <= len (iloc_upto step_series (-1)))%Z.
Proof.
  split.
  - apply (calc_r_z_prev step_series). vm_compute. discriminate.
  - apply (calc_r_z_prev step_series). vm_compute. discriminate.
Defined.

(** ** No calculator raises *)

(** An undefined rolling z-score, current or previous, gives the default. *)
Lemma calc_r_undefined (prices : list R) :
  rolling_z prices 34 = Ok None \/ z_prev_of prices = Ok None ->
  calc_r prices = Ok 1.
Proof.
  intros Hnone.
  destruct (Z.lt_ge_cases (len prices) 35) as [Hlt|Hge].
  - now apply calc_r_short.
  - destruct (rolling_z_total prices 34) as (z_curr & Hc); [lia|].
    destruct (rolling_z_total (iloc_upto prices (-1)) 34) as (z_prev & Hp);
      [lia|].
    rewrite <- (z_prev_of_long prices Hge) in Hp.
    rewrite (calc_r_long prices z_curr z_prev Hge Hc Hp).
    destruct Hnone as [H|H].
    + rewrite H in Hc. apply Ok_inj in Hc. now subst z_curr.
    + rewrite H in Hp. apply Ok_inj in Hp. subst z_prev. now destruct z_curr.
Qed.

Lemma theta_total (prices : list R) :
  exists theta, calc_theta_from_flow prices = Ok theta.
Proof.
  destruct (theta_cases prices) as [E|(y & x & E)]; rewrite E;
    eexists; reflexivity.
Qed.

(** C7.  None of the four calculators raises, on any series (and any
    positive period for [calculate_ema], over any arithmetic): each returns
    a value.  Short series give the defaults ([None], [0], [0], [1]); a
    zero median absolute deviation gives [0] for [calc_z], and an undefined
    rolling z-score gives [1] for [calc_r]. *)
Theorem calculators_never_raise :
  (forall (T : Type) (N : Number T) (series : list T) (period : Z),
      (0 < period)%Z ->
      (exists r, calculate_ema series period = Ok r) /\
      ((len series < period)%Z -> calculate_ema series period = Ok None)) /\
  (forall prices : list R,
      (exists theta, calc_theta_from_flow prices = Ok theta) /\
      ((len prices < 2)%Z -> calc_theta_from_flow prices = Ok 0)) /\
  (forall (prices : list R) (current : R),
      (exists z, calc_z prices current = Ok z) /\
      ((len prices < 21)%Z -> calc_z prices current = Ok 0) /\
      (forall median,
          series_median prices = Ok median ->
          series_median (abs_deviations prices median) = Ok 0 ->
          calc_z prices current = Ok 0)) /\
  (forall prices : list R,
      (exists r, calc_r prices = Ok r) /\
      ((len prices < 35)%Z -> calc_r prices = Ok 1) /\
      (rolling_z prices 34 = Ok None \/ z_prev_of prices = Ok None ->
       calc_r prices = Ok 1)).
Proof.
  repeat split.
  - now apply calculate_ema_total.
  - apply calculate_ema_short.
  - apply theta_total.
  - apply theta_short.
  - apply calc_z_total.
  - apply calc_z_short.
  - intros median Hmed Hmad.
    destruct (Z.lt_ge_cases (len prices) 21) as [Hlt|Hge].
    + now apply calc_z_short.
    + rewrite (calc_z_long prices current median 0 Hge Hmed Hmad).
      destruct (Reqb_spec 0 0); [reflexivity|contradiction].
  - destruct (calc_r_bounded prices) as (r & E & _). now exists r.
  - apply calc_r_short.
  - apply calc_r_undefined.
Qed.

(** Period 34 on 34 binary64 bars, and three bars for the ratio. *)
Lemma calculators_never_raise_witness :
  (exists r, calculate_ema flat_100 34 = Ok r) /\
  calc_r (repeat 7 3) = Ok 1.
Proof.
  split.
  - apply (proj1 calculators_never_raise float float64 flat_100 34%Z). lia.
  - apply (proj1 (proj2 (proj2 (proj2 (proj2 calculators_never_raise))
                          (repeat 7 3)))).
    vm_compute. reflexivity.
Defined.

(** The model can raise: the guards are what keeps the calculators safe.
    Without the positive period, [calculate_ema] divides by zero or indexes
    an empty series. *)
Lemma calculate_ema_unguarded :
  calculate_ema ([] : list float) (-1) = Raise ZeroDivisionError /\
  calculate_ema ([] : list float) 0 = Raise IndexError /\
  truediv 1 0 = Raise ZeroDivisionError /\
  iloc ([] : list R) (-1) = Raise IndexError /\
  series_median [] = Raise NotANumber.
Proof.
  repeat split; try reflexivity.
  unfold truediv. destruct (Reqb_spec 0 0); [reflexivity|contradiction].
Qed.

(** * The rest of the script: properties *)

(** ** [sanitize_ticker] *)

Lemma upper_char_not_lower (c : ascii) : is_lower (upper_char c) = false.
Proof. destruct c as [[] [] [] [] [] [] [] []]; reflexivity. Qed.

Lemma upper_char_fixed (c : ascii) : is_lower c = false -> upper_char c = c.
Proof. intros H. unfold upper_char. now rewrite H. Qed.

Lemma str_upper_fixed (s : list ascii) :
  forallb (fun c => negb (is_lower c)) s = true -> str_upper s = s.
Proof.
  induction s as [|c s IH]; simpl; intros H; [reflexivity|].
  apply andb_prop in H as [Hc Hs]. apply negb_true_iff in Hc.
  now rewrite (upper_char_fixed c Hc), (IH Hs).
Qed.

Lemma str_upper_no_lower (s : list ascii) :
  forallb (fun c => negb (is_lower c)) (str_upper s) = true.
Proof.
  induction s as [|c s IH]; simpl; [reflexivity|].
  now rewrite upper_char_not_lower, IH.
Qed.

Lemma str_remove_fixed (old : ascii) (s : list ascii) :
  forallb (fun c => negb (Ascii.eqb c old)) s = true -> str_remove old s = s.
Proof.
  induction s as [|c s IH]; simpl; intros H; [reflexivity|].
  apply andb_prop in H as [Hc Hs]. rewrite Hc. f_equal. now apply IH.
Qed.

Lemma str_remove_gone (old : ascii) (s : list ascii) :
  forallb (fun c => negb (Ascii.eqb c old)) (str_remove old s) = true.
Proof.
  induction s as [|c s IH]; simpl; [reflexivity|].
  destruct (negb (Ascii.eqb c old)) eqn:E; simpl; [now rewrite E|exact IH].
Qed.

Section Kept.
Variable p : ascii -> bool.

Lemma str_remove_keeps (old : ascii) (s : list ascii) :
  forallb p s = true -> forallb p (str_remove old s) = true.
Proof.
  induction s as [|c s IH]; simpl; intros H; [reflexivity|].
  apply andb_prop in H as [Hc Hs].
  destruct (negb (Ascii.eqb c old)); simpl; [rewrite Hc|]; now apply IH.
Qed.

Lemma lstrip_keeps (s : list ascii) :
  forallb p s = true -> forallb p (lstrip s) = true.
Proof.
  induction s as [|c s IH]; simpl; intros H; [reflexivity|].
  destruct (is_space c); [|exact H].
  apply andb_prop in H as [_ Hs]. now apply IH.
Qed.

Lemma rstrip_keeps (s : list ascii) :
  forallb p s = true -> forallb p (rstrip s) = true.
Proof.
  induction s as [|c s IH]; simpl; intros H; [reflexivity|].
  apply andb_prop in H as [Hc Hs]. specialize (IH Hs).
  destruct (rstrip s) as [|k ks].
  - destruct (is_space c); simpl; [reflexivity|now rewrite Hc].
  - change (forallb p (c :: k :: ks)) with (p c && forallb p (k :: ks)).
    now rewrite Hc, IH.
Qed.

End Kept.

Lemma lstrip_start (s : list ascii) : starts_with_space (lstrip s) = false.
Proof.
  induction s as [|c s IH]; simpl; [reflexivity|].
  destruct (is_space c) eqn:E; [exact IH|]. simpl. exact E.
Qed.

Lemma rstrip_start (s : list ascii) :
  starts_with_space s = false -> starts_with_space (rstrip s) = false.
Proof.
  destruct s as [|c s]; simpl; intros H; [reflexivity|].
  destruct (rstrip s); [rewrite H|]; simpl; exact H.
Qed.

Lemma last_default (k : ascii) (ks : list ascii) (d d' : ascii) :
  last (k :: ks) d = last (k :: ks) d'.
Proof.
  revert k. induction ks as [|k' ks IH]; intros k; [reflexivity|].
  change (last (k' :: ks) d = last (k' :: ks) d'). apply IH.
Qed.

Lemma ends_with_space_cons (c k : ascii) (ks : list ascii) :
  ends_with_space (c :: k :: ks) = ends_with_space (k :: ks).
Proof.
  unfold ends_with_space.
  change (last (c :: k :: ks) c) with (last (k :: ks) c).
  now rewrite (last_default k ks c k).
Qed.

Lemma rstrip_end (s : list ascii) : ends_with_space (rstrip s) = false.
Proof.
  induction s as [|c s IH]; simpl; [reflexivity|].
  destruct (rstrip s) as [|k ks].
  - destruct (is_space c) eqn:E; simpl; [reflexivity|exact E].
  - rewrite ends_with_space_cons. exact IH.
Qed.

Lemma lstrip_fixed (s : list ascii) :
  starts_with_space s = false -> lstrip s = s.
Proof. destruct s as [|c s]; simpl; intros H; [reflexivity|now rewrite H]. Qed.

Lemma rstrip_fixed (s : list ascii) :
  ends_with_space s = false -> rstrip s = s.
Proof.
  induction s as [|c s IH]; intros H; [reflexivity|].
  destruct s as [|k ks].
  - simpl in *. now rewrite H.
  - rewrite ends_with_space_cons in H.
    change (rstrip (c :: k :: ks))
      with (match rstrip (k :: ks) with
            | [] => if is_space c then [] else [c]
            | kept => c :: kept
            end).
    now rewrite (IH H).
Qed.

Lemma sanitize_ticker_output (ticker : list ascii) :
  clean_ticker (sanitize_ticker ticker) = true.
Proof.
  unfold clean_ticker, sanitize_ticker, str_strip.
  rewrite rstrip_keeps
    by (apply lstrip_keeps, str_remove_keeps, str_upper_no_lower).
  rewrite rstrip_keeps by (apply lstrip_keeps, str_remove_gone).
  rewrite rstrip_start by apply lstrip_start.
  now rewrite rstrip_end.
Qed.

Lemma sanitize_ticker_clean_input (ticker : list ascii) :
  clean_ticker ticker = true -> sanitize_ticker ticker = ticker.
Proof.
  unfold clean_ticker. intros H.
  apply andb_prop in H as [H Hend]. apply andb_prop in H as [H Hstart].
  apply andb_prop in H as [Hlow Hcaret].
  apply negb_true_iff in Hend, Hstart.
  unfold sanitize_ticker, str_strip.
  rewrite (str_upper_fixed ticker Hlow), (str_remove_fixed _ ticker Hcaret).
  now rewrite (lstrip_fixed ticker Hstart), (rstrip_fixed ticker Hend).
Qed.

(** X1.  On ASCII text the sanitized ticker has no lower-case letter and no
    caret, and neither starts nor ends with white space. *)
Theorem sanitize_ticker_is_clean (ticker : list ascii) :
  is_ascii_text ticker = true ->
  clean_ticker (sanitize_ticker ticker) = true.
Proof. intros _. apply sanitize_ticker_output. Qed.

(** A lower-case index symbol with a caret and stray blanks. *)
Lemma sanitize_ticker_is_clean_witness :
  clean_ticker
    (sanitize_ticker [" "; "^"; "g"; "s"; "p"; "c"; " "]%char) = true.
Proof.
  apply (sanitize_ticker_is_clean [" "; "^"; "g"; "s"; "p"; "c"; " "]%char).
  reflexivity.
Defined.

(** X2.  On ASCII text [sanitize_ticker] leaves a clean ticker as it is, and
    so sanitizing twice is sanitizing once. *)
Theorem sanitize_ticker_idempotent (ticker : list ascii) :
  is_ascii_text ticker = true ->
  (clean_ticker ticker = true -> sanitize_ticker ticker = ticker) /\
  sanitize_ticker (sanitize_ticker ticker) = sanitize_ticker ticker.
Proof.
  intros _. split.
  - apply sanitize_ticker_clean_input.
  - apply sanitize_ticker_clean_input, sanitize_ticker_output.
Qed.

Lemma sanitize_ticker_idempotent_witness :
  sanitize_ticker ["B"; "R"; "K"; "-"; "B"]%char
    = ["B"; "R"; "K"; "-"; "B"]%char /\
  sanitize_ticker (sanitize_ticker ["^"; "v"; "i"; "x"; " "]%char)
    = sanitize_ticker ["^"; "v"; "i"; "x"; " "]%char.
Proof.
  split.
  - apply (sanitize_ticker_idempotent ["B"; "R"; "K"; "-"; "B"]%char);
      reflexivity.
  - apply (sanitize_ticker_idempotent ["^"; "v"; "i"; "x"; " "]%char).
    reflexivity.
Defined.

(** ** [calculate_ema] with period 1 *)

Lemma ema_recurrence_last (avg x : R) (rest : list R) :
  ema_recurrence 1 avg (rest ++ [x]) = x.
Proof.
  revert avg. induction rest as [|value rest IH]; intros avg; simpl.
  - ring.
  - apply IH.
Qed.

(** X4.  Over the reals, with period 1 the multiplier is 1 and the EMA of a
    non-empty series is its last price. *)
Theorem calculate_ema_period_one (series : list R) :
  (1 <= len series)%Z ->
  exists last,
    iloc series (-1) = Ok last /\ calculate_ema series 1 = Ok (Some last).
Proof.
  intros Hlen.
  destruct (exists_last (l := series)) as (front & x & ->).
  { intros ->. unfold len in Hlen. simpl in Hlen. lia. }
  exists x. split; [apply iloc_last|].
  destruct front as [|first rest].
  - rewrite (calculate_ema_long x [] 1 ltac:(lia) Hlen). reflexivity.
  - change ((first :: rest) ++ [x]) with (first :: rest ++ [x]) in *.
    rewrite (calculate_ema_long first (rest ++ [x]) 1 ltac:(lia) Hlen).
    do 2 f_equal.
    replace (div (of_int 2) (of_int (1 + 1))) with 1 by (simpl; lra).
    apply ema_recurrence_last.
Qed.

Lemma calculate_ema_period_one_witness :
  exists last,
    iloc [3; 5; 4] (-1) = Ok last /\ calculate_ema [3; 5; 4] 1 = Ok (Some last).
Proof.
  apply (calculate_ema_period_one [3; 5; 4]). vm_compute. discriminate.
Defined.

(** ** [calc_theta_from_flow] on positive prices *)

Lemma degrees_between (lo hi r : R) :
  lo * PI <= r <= hi * PI -> lo * 180 <= degrees r <= hi * 180.
Proof.
  intros Hr. pose proof PI_RGT_0 as Hpi.
  replace r with (r / PI * PI) by (field; lra).
  rewrite degrees_PI_multiple.
  assert (lo <= r / PI <= hi); [|lra].
  split.
  - apply Rmult_le_reg_r with PI; [lra|].
    replace (r / PI * PI) with r by (field; lra). lra.
  - apply Rmult_le_reg_r with PI; [lra|].
    replace (r / PI * PI) with r by (field; lra). lra.
Qed.

(** On a positive level the angle is the arctangent of the relative
    change, with the sign of the change. *)
Lemma atan2_right (y x : R) :
  0 < x ->
  atan2 y x = atan (y / x) /\
  (0 <= y -> 0 <= atan (y / x)) /\
  (y <= 0 -> atan (y / x) <= 0).
Proof.
  intros Hx.
  assert (Hinv : 0 < / x) by (apply Rinv_0_lt_compat; lra).
  split; [|split].
  - unfold atan2. destruct (Rltb_spec 0 x); [reflexivity|lra].
  - intros [Hy| <-].
    + assert (Hq : 0 < y / x) by (unfold Rdiv; nra).
      pose proof (atan_increasing _ _ Hq) as H. rewrite atan_0 in H. lra.
    + unfold Rdiv. rewrite Rmult_0_l, atan_0. lra.
  - intros [Hy| ->].
    + assert (Hq : y / x < 0) by (unfold Rdiv; nra).
      pose proof (atan_increasing _ _ Hq) as H. rewrite atan_0 in H. lra.
    + unfold Rdiv. rewrite Rmult_0_l, atan_0. lra.
Qed.

(** X6.  When the previous close is positive, theta is in [[-90, 90]], is
    not negative on a rise and not positive on a fall. *)
Theorem theta_positive_level (history : list R) (prev current : R) :
  0 < prev ->
  exists theta,
    calc_theta_from_flow (history ++ [prev; current]) = Ok theta /\
    -90 <= theta <= 90 /\
    (prev <= current -> 0 <= theta) /\
    (current <= prev -> theta <= 0).
Proof.
  intros Hprev. rewrite theta_last_two. eexists. split; [reflexivity|].
  destruct (atan2_right (current - prev) prev Hprev) as (-> & Hup & Hdown).
  pose proof (atan_bound ((current - prev) / prev)) as [Alo Ahi].
  pose proof PI_RGT_0 as Hpi.
  set (angle := atan ((current - prev) / prev)) in *.
  assert (Hall : -9000 / 100 <= py_round (degrees angle) 2 <= 9000 / 100).
  { apply (py_round_2_between (-9000) 9000).
    pose proof (degrees_between (- (1 / 2)) (1 / 2) angle ltac:(lra)). lra. }
  split; [lra|]. split; intros Hdir.
  - assert (H0 : 0 / 100 <= py_round (degrees angle) 2 <= 9000 / 100);
      [|lra].
    apply (py_round_2_between 0 9000).
    pose proof (degrees_between 0 (1 / 2) angle
                  ltac:(specialize (Hup ltac:(lra)); lra)). lra.
  - assert (H0 : -9000 / 100 <= py_round (degrees angle) 2 <= 0 / 100);
      [|lra].
    apply (py_round_2_between (-9000) 0).
    pose proof (degrees_between (- (1 / 2)) 0 angle
                  ltac:(specialize (Hdown ltac:(lra)); lra)). lra.
Qed.

Lemma theta_positive_level_witness :
  exists theta,
    calc_theta_from_flow ([100] ++ [105; 102]) = Ok theta /\
    -90 <= theta <= 90 /\
    (105 <= 102 -> 0 <= theta) /\
    (102 <= 105 -> theta <= 0).
Proof. apply (theta_positive_level [100] 105 102). lra. Defined.

(** X7.  Theta reads the last two closes only: whatever history stands in
    front of them changes nothing. *)
Theorem theta_last_two_only (history : list R) (prev current : R) :
  calc_theta_from_flow (history ++ [prev; current])
    = calc_theta_from_flow [prev; current].
Proof. now rewrite theta_last_two, theta_pair. Qed.

(** ** Medians of flat series *)

Lemma sort_repeat (v : R) (n : nat) : sort (repeat v n) = repeat v n.
Proof.
  induction n as [|n IH]; simpl; [reflexivity|].
  rewrite IH. destruct n as [|n]; simpl; [reflexivity|].
  destruct (Rle_dec v v) as [_|H]; [reflexivity|].
  exfalso. apply H. lra.
Qed.

Lemma nth_repeat_inside (v d : R) (n i : nat) :
  (i < n)%nat -> nth i (repeat v n) d = v.
Proof.
  intros Hi. rewrite (nth_indep _ d v) by (now rewrite repeat_length).
  apply nth_repeat.
Qed.

Lemma median_repeat (v : R) (n : nat) :
  (0 < n)%nat -> series_median (repeat v n) = Ok v.
Proof.
  intros Hn. unfold series_median. cbv zeta.
  rewrite sort_repeat, repeat_length.
  destruct (Nat.eqb_spec n 0) as [E|_]; [lia|].
  assert (Hhalf : (n / 2 < n)%nat) by (apply Nat.div_lt; lia).
  destruct (Nat.even n).
  - rewrite !nth_repeat_inside by lia. f_equal. lra.
  - now rewrite nth_repeat_inside by lia.
Qed.

(** A series of identical closes is a repetition. *)
Lemma flat_series (v : R) (series : list R) :
  (forall x, In x series -> x = v) -> series = repeat v (length series).
Proof.
  intros Hall. apply Forall_eq_repeat. apply Forall_forall.
  intros x Hx. symmetry. now apply Hall.
Qed.

Lemma abs_deviations_flat (v : R) (n : nat) :
  abs_deviations (repeat v n) v = repeat 0 n.
Proof.
  rewrite abs_deviations_repeat. f_equal.
  replace (v - v) with 0 by ring. apply Rabs_R0.
Qed.

Lemma calc_z_flat (v current : R) (n : nat) :
  calc_z (repeat v n) current = Ok 0.
Proof.
  destruct (Z.lt_ge_cases (len (repeat v n)) 21) as [Hlt|Hge].
  - now apply calc_z_short.
  - assert (Hn : (0 < n)%nat)
      by (unfold len in Hge; rewrite repeat_length in Hge; lia).
    rewrite (calc_z_long (repeat v n) current v 0 Hge).
    + destruct (Reqb_spec 0 0); [reflexivity|contradiction].
    + now apply median_repeat.
    + rewrite abs_deviations_flat. now apply median_repeat.
Qed.

(** The rolling z-score looks at the trailing bars only. *)
Lemma iloc_from_tail_app (front window : list R) (k : Z) :
  (0 < k <= len window)%Z ->
  iloc_from (front ++ window) (- k) = iloc_from window (- k).
Proof.
  intros Hk. unfold iloc_from, slice_bound. rewrite len_app.
  pose proof (len_nonneg front) as Hf.
  destruct (Z.ltb_spec (- k) 0) as [_|?]; [|lia].
  rewrite skipn_app.
  rewrite skipn_all2 by (unfold len in *; lia).
  simpl. f_equal. unfold len in *. lia.
Qed.

Lemma iloc_last_app (front window : list R) :
  (1 <= len window)%Z ->
  iloc (front ++ window) (-1) = iloc window (-1).
Proof.
  intros Hlen.
  destruct (exists_last (l := window)) as (w & x & ->).
  { intros ->. unfold len in Hlen. simpl in Hlen. lia. }
  now rewrite app_assoc, !iloc_last.
Qed.

Lemma rolling_z_tail (front window : list R) (lookback : Z) :
  (0 < lookback <= len window)%Z ->
  rolling_z (front ++ window) lookback = rolling_z window lookback.
Proof.
  intros Hk. unfold rolling_z.
  pose proof (len_nonneg front) as Hf.
  destruct (Z.ltb_spec (len (front ++ window)) lookback) as [H|_].
  { rewrite len_app in H. lia. }
  destruct (Z.ltb_spec (len window) lookback); [lia|].
  rewrite (iloc_from_tail_app front window lookback Hk).
  now rewrite (iloc_last_app front window) by lia.
Qed.

Lemma z_prev_of_tail (front window : list R) :
  (35 <= len window)%Z -> z_prev_of (front ++ window) = z_prev_of window.
Proof.
  intros Hlen. pose proof (len_nonneg front) as Hf.
  rewrite !z_prev_of_long by (rewrite ?len_app; lia).
  destruct (exists_last (l := window)) as (w & x & ->).
  { intros ->. unfold len in Hlen. simpl in Hlen. lia. }
  rewrite app_assoc, !iloc_upto_drop_last.
  apply rolling_z_tail.
  rewrite len_app in Hlen. change (len [x]) with 1%Z in Hlen. lia.
Qed.

Lemma calc_r_tail (front window : list R) :
  (35 <= len window)%Z -> calc_r (front ++ window) = calc_r window.
Proof.
  intros Hlen. pose proof (len_nonneg front) as Hf. unfold calc_r.
  destruct (Z.ltb_spec (len (front ++ window)) 35) as [H|_].
  { rewrite len_app in H. lia. }
  destruct (Z.ltb_spec (len window) 35); [lia|].
  rewrite (rolling_z_tail front window 34) by lia.
  now rewrite (z_prev_of_tail front window Hlen).
Qed.

Lemma rolling_z_flat (v : R) : rolling_z (repeat v 34) 34 = Ok None.
Proof.
  rewrite (rolling_z_long (repeat v 34) 34 v 0 v).
  - destruct (Reqb_spec 0 0); [reflexivity|contradiction].
  - vm_compute. discriminate.
  - change (iloc_from (repeat v 34) (Z.opp 34)) with (repeat v 34).
    apply median_repeat. lia.
  - change (iloc_from (repeat v 34) (Z.opp 34)) with (repeat v 34).
    rewrite abs_deviations_flat. apply median_repeat. lia.
  - reflexivity.
Qed.

(** X8.  A flat series has no anomaly: [calc_z] is [0] when every close is
    the same, whatever value is scored; and [calc_r] is [1] as soon as the
    last 34 closes are the same. *)
Theorem flat_series_defaults (v : R) :
  (forall (prices : list R) (current : R),
      (forall x, In x prices -> x = v) -> calc_z prices current = Ok 0) /\
  (forall history : list R, calc_r (history ++ repeat v 34) = Ok 1).
Proof.
  split.
  - intros prices current Hall.
    rewrite (flat_series v prices Hall). apply calc_z_flat.
  - intros history. apply calc_r_undefined. left.
    rewrite (rolling_z_tail history (repeat v 34) 34)
      by (vm_compute; split; [reflexivity|discriminate]).
    apply rolling_z_flat.
Qed.

Lemma flat_series_defaults_witness : calc_z (repeat 50 21) 50 = Ok 0.
Proof.
  apply (proj1 (flat_series_defaults 50) (repeat 50 21) 50).
  intros x Hx. apply repeat_spec in Hx. exact Hx.
Defined.

(** X9.  [calc_r] reads the last 35 closes only: older history in front of
    them changes nothing. *)
Theorem calc_r_last_35 (history window : list R) :
  (35 <= len window)%Z -> calc_r (history ++ window) = calc_r window.
Proof. apply calc_r_tail. Qed.

Lemma calc_r_last_35_witness :
  calc_r ([9; 9; 9] ++ step_series) = calc_r step_series.
Proof.
  apply (calc_r_last_35 [9; 9; 9] step_series). vm_compute. discriminate.
Defined.

(** ** The sign of [calc_z] *)

Lemma median_of_nonneg (l : list R) (m : R) :
  Forall (Rle 0) l -> series_median l = Ok m -> 0 <= m.
Proof.
  intros Hall. unfold series_median. cbv zeta.
  assert (Hs : Forall (Rle 0) (sort l))
    by (apply (Permutation_Forall (Permutation_sym (sort_perm l)));
        exact Hall).
  assert (Hnth : forall i, 0 <= nth i (sort l) 0).
  { intros i. destruct (Nat.lt_ge_cases i (length (sort l))) as [Hi|Hi].
    - rewrite Forall_forall in Hs. apply Hs. now apply nth_In.
    - rewrite nth_overflow by exact Hi. lra. }
  destruct (length (sort l) =? 0)%nat; [discriminate|].
  destruct (Nat.even (length (sort l))); intros E; apply Ok_inj in E;
    subst m.
  - pose proof (Hnth (length (sort l) / 2 - 1)%nat) as Ha.
    pose proof (Hnth (length (sort l) / 2)%nat) as Hb.
    lra.
  - apply Hnth.
Qed.

Lemma abs_deviations_nonneg (l : list R) (m : R) :
  Forall (Rle 0) (abs_deviations l m).
Proof.
  unfold abs_deviations. rewrite map_map. apply Forall_forall.
  intros y Hy. apply in_map_iff in Hy as (x & <- & _). apply Rabs_pos.
Qed.

Lemma py_round_2_sign (x : R) :
  (0 <= x -> 0 <= py_round x 2) /\ (x <= 0 -> py_round x 2 <= 0).
Proof.
  unfold py_round. simpl pow. split; intros Hx.
  - assert (H : (0 <= round_half_even (x * (10 * (10 * 1))))%Z)
      by (apply round_half_even_ge; lra).
    apply IZR_le in H. lra.
  - assert (H : (round_half_even (x * (10 * (10 * 1))) <= 0)%Z)
      by (apply round_half_even_le; lra).
    apply IZR_le in H. lra.
Qed.

(** X10.  The sign of [calc_z] tells the side of the median: it is never
    negative for a value at or above the median of the series, never positive
    for a value at or below it, and [0] at the median itself. *)
Theorem calc_z_sign (prices : list R) (current median : R) :
  series_median prices = Ok median ->
  exists z,
    calc_z prices current = Ok z /\
    (median <= current -> 0 <= z) /\
    (current <= median -> z <= 0).
Proof.
  intros Hmed.
  destruct (Z.lt_ge_cases (len prices) 21) as [Hlt|Hge].
  - exists 0. rewrite (calc_z_short prices current Hlt).
    split; [reflexivity|]. split; intros _; lra.
  - destruct (median_defined (abs_deviations prices median)) as (mad & Hmad).
    { rewrite len_abs_deviations. lia. }
    rewrite (calc_z_long prices current median mad Hge Hmed Hmad).
    pose proof (median_of_nonneg _ mad
                  (abs_deviations_nonneg prices median) Hmad) as Hpos.
    destruct (Reqb_spec mad 0) as [E|NE].
    + exists 0. split; [reflexivity|]. split; intros _; lra.
    + eexists. split; [reflexivity|].
      assert (Hinv : 0 < / mad) by (apply Rinv_0_lt_compat; lra).
      destruct (py_round_2_sign ((current - median) / mad)) as [Hup Hdown].
      split; intros Hside; [apply Hup|apply Hdown]; unfold Rdiv; nra.
Qed.

Lemma calc_z_sign_witness :
  exists z,
    calc_z (repeat 50 21) 51 = Ok z /\
    (50 <= 51 -> 0 <= z) /\ (51 <= 50 -> z <= 0).
Proof.
  apply (calc_z_sign (repeat 50 21) 51 50).
  apply median_repeat. lia.
Defined.

(** ** The indicator stage of [get_stock_data] *)

Ltac stage_step H :=
  match type of H with
  | bind ?c _ = _ =>
      let E := fresh "E" in
      destruct c eqn:E; cbn [bind] in H; [|discriminate H]
  end.

Lemma stage_computed (hist_daily hist_weekly : list R) (v : indicators) :
  get_stock_data_indicators hist_daily hist_weekly = Ok (Computed v) ->
  computed_from hist_daily hist_weekly v.
Proof.
  unfold get_stock_data_indicators. intros H.
  destruct (len hist_daily =? 0)%Z; [discriminate H|].
  repeat stage_step H.
  apply Ok_inj in H. injection H as <-.
  unfold computed_from. cbn.
  repeat (split; [assumption || reflexivity|]).
  split; [eexists; split; eassumption|].
  repeat (split; [assumption || reflexivity|]). reflexivity.
Qed.

Lemma stage_succeeds (hist_daily hist_weekly : list R) :
  (1 <= len hist_daily)%Z -> (1 <= len hist_weekly)%Z ->
  exists v, get_stock_data_indicators hist_daily hist_weekly
            = Ok (Computed v).
Proof.
  intros Hd Hw. unfold get_stock_data_indicators.
  destruct (Z.eqb_spec (len hist_daily) 0) as [E|_]; [lia|].
  destruct (iloc_in_range hist_daily (-1)) as (current & ->); [lia|].
  cbn [bind].
  assert (Hprev : exists prev,
             (if (1 <? len hist_daily)%Z then iloc hist_daily (-2)
              else Ok current) = Ok prev).
  { destruct (Z.ltb_spec 1 (len hist_daily)); [|now exists current].
    apply iloc_in_range. lia. }
  destruct Hprev as (prev & ->). cbn [bind].
  destruct (calculate_ema_total hist_daily 34) as (d34 & ->); [lia|].
  destruct (calculate_ema_total hist_daily 55) as (d55 & ->); [lia|].
  destruct (calculate_ema_total hist_daily 21) as (d21 & ->); [lia|].
  destruct (calculate_ema_total hist_daily 13) as (d13 & ->); [lia|].
  destruct (calculate_ema_total hist_weekly 34) as (w34 & ->); [lia|].
  destruct (calculate_ema_total hist_weekly 55) as (w55 & ->); [lia|].
  destruct (calculate_ema_total hist_weekly 21) as (w21 & ->); [lia|].
  destruct (calculate_ema_total hist_weekly 13) as (w13 & ->); [lia|].
  cbn [bind].
  destruct (theta_total hist_daily) as (dtheta & ->).
  destruct (calc_z_total hist_daily current) as (dz & ->).
  destruct (calc_r_bounded hist_daily) as (dr & -> & _).
  destruct (theta_total hist_weekly) as (wtheta & ->).
  destruct (iloc_in_range hist_weekly (-1)) as (wlast & ->); [lia|].
  cbn [bind].
  destruct (calc_z_total hist_weekly wlast) as (wz & ->).
  destruct (calc_r_bounded hist_weekly) as (wr & -> & _).
  cbn [bind]. eexists. reflexivity.
Qed.

(** With a daily history and no weekly one, everything up to the weekly
    z-score goes through, and its argument [hist_weekly['Close'].iloc[-1]]
    raises. *)
Lemma stage_without_weekly (hist_daily : list R) :
  (1 <= len hist_daily)%Z ->
  get_stock_data_indicators hist_daily [] = Raise IndexError.
Proof.
  intros Hd. unfold get_stock_data_indicators.
  destruct (Z.eqb_spec (len hist_daily) 0) as [E|_]; [lia|].
  destruct (iloc_in_range hist_daily (-1)) as (current & ->); [lia|].
  cbn [bind].
  assert (Hprev : exists prev,
             (if (1 <? len hist_daily)%Z then iloc hist_daily (-2)
              else Ok current) = Ok prev).
  { destruct (Z.ltb_spec 1 (len hist_daily)); [|now exists current].
    apply iloc_in_range. lia. }
  destruct Hprev as (prev & ->). cbn [bind].
  destruct (calculate_ema_total hist_daily 34) as (d34 & ->); [lia|].
  destruct (calculate_ema_total hist_daily 55) as (d55 & ->); [lia|].
  destruct (calculate_ema_total hist_daily 21) as (d21 & ->); [lia|].
  destruct (calculate_ema_total hist_daily 13) as (d13 & ->); [lia|].
  cbn [bind].
  rewrite !(calculate_ema_short (T := R) []) by (vm_compute; reflexivity).
  cbn [bind].
  destruct (theta_total hist_daily) as (dtheta & ->).
  destruct (calc_z_total hist_daily current) as (dz & ->).
  destruct (calc_r_bounded hist_daily) as (dr & -> & _).
  cbn [bind]. rewrite (theta_short []) by (vm_compute; reflexivity).
  reflexivity.
Qed.

(** X12.  [get_stock_data] answers with an error object whenever a history
    comes back empty.  An empty daily history is the announced "No data
    found" case; an empty weekly history beside a daily one is not guarded:
    the argument [hist_weekly['Close'].iloc[-1]] of the weekly z-score raises
    [IndexError], which the [except] turns into the error object. *)
Theorem get_stock_data_empty_history (hist_daily hist_weekly : list R) :
  (hist_daily = [] ->
   get_stock_data_indicators hist_daily hist_weekly = Ok NoDataFound) /\
  (hist_daily <> [] -> hist_weekly = [] ->
   get_stock_data_indicators hist_daily hist_weekly = Raise IndexError) /\
  (hist_daily = [] \/ hist_weekly = [] ->
   error_object (get_stock_data_indicators hist_daily hist_weekly) = true).
Proof.
  assert (Hnone : hist_daily = [] ->
                  get_stock_data_indicators hist_daily hist_weekly
                  = Ok NoDataFound) by (now intros ->).
  assert (Hweek : hist_daily <> [] -> hist_weekly = [] ->
                  get_stock_data_indicators hist_daily hist_weekly
                  = Raise IndexError).
  { intros Hd ->. apply stage_without_weekly.
    destruct hist_daily; [contradiction|]. rewrite len_cons.
    pose proof (len_nonneg hist_daily). lia. }
  split; [exact Hnone|]. split; [exact Hweek|].
  intros [Hd|Hw].
  - now rewrite (Hnone Hd).
  - destruct hist_daily as [|x d] eqn:E.
    + now rewrite (Hnone eq_refl).
    + rewrite Hweek; [reflexivity|discriminate|exact Hw].
Qed.

Lemma get_stock_data_empty_history_witness :
  get_stock_data_indicators [] [1; 2] = Ok NoDataFound /\
  get_stock_data_indicators [1; 2] [] = Raise IndexError /\
  error_object (get_stock_data_indicators [1; 2] []) = true.
Proof.
  split; [|split].
  - apply (proj1 (get_stock_data_empty_history [] [1; 2])). reflexivity.
  - apply (proj1 (proj2 (get_stock_data_empty_history [1; 2] []))).
    + discriminate.
    + reflexivity.
  - apply (proj2 (proj2 (get_stock_data_empty_history [1; 2] []))).
    now right.
Defined.

Lemma theta_bounded (prices : list R) (theta : R) :
  calc_theta_from_flow prices = Ok theta -> -180 <= theta <= 180.
Proof.
  destruct (theta_cases prices) as [E|(y & x & E)]; rewrite E;
    intros H; apply Ok_inj in H; subst theta.
  - lra.
  - apply theta_angle_bounds.
Qed.

Lemma calc_r_in_range (prices : list R) (r : R) :
  calc_r prices = Ok r -> -5 <= r <= 5.
Proof.
  destruct (calc_r_bounded prices) as (r' & -> & Hr).
  intros H. apply Ok_inj in H. now subst r'.
Qed.

(** An EMA is missing exactly when the candles are fewer than its period. *)
Lemma calculate_ema_none_iff (series : list R) (period : Z) (e : option R) :
  (0 < period)%Z -> calculate_ema series period = Ok e ->
  (e = None <-> (len series < period)%Z).
Proof.
  intros Hpos He.
  destruct (Z.lt_ge_cases (len series) period) as [Hlt|Hge].
  - rewrite (calculate_ema_short series period Hlt) in He.
    apply Ok_inj in He. subst e. now split.
  - destruct (series_nonempty series period Hpos Hge) as (first & rest & ->).
    rewrite (calculate_ema_long first rest period Hpos Hge) in He.
    apply Ok_inj in He. subst e. split; [discriminate|lia].
Qed.

(** X13.  With at least one daily and one weekly candle the indicator stage
    never raises: it ends with its locals, the candle counts are the lengths
    of the two histories, both thetas are in [[-180, 180]] and both
    convergence ratios in [[-5, 5]]. *)
Theorem indicator_stage_succeeds (hist_daily hist_weekly : list R) :
  (1 <= len hist_daily)%Z -> (1 <= len hist_weekly)%Z ->
  exists v,
    get_stock_data_indicators hist_daily hist_weekly = Ok (Computed v) /\
    error_object (get_stock_data_indicators hist_daily hist_weekly) = false /\
    daily_candles v = len hist_daily /\
    weekly_candles v = len hist_weekly /\
    -180 <= daily_theta v <= 180 /\
    -180 <= weekly_theta v <= 180 /\
    -5 <= daily_r v <= 5 /\
    -5 <= weekly_r v <= 5.
Proof.
  intros Hd Hw.
  destruct (stage_succeeds hist_daily hist_weekly Hd Hw) as (v & E).
  pose proof (stage_computed hist_daily hist_weekly v E) as F.
  unfold computed_from in F.
  destruct F as (_ & _ & _ & _ & _ & _ & _ & _ & _ & _ &
                 Hdt & _ & Hdr & Hwt & _ & Hwr & Hdc & Hwc).
  exists v. rewrite E.
  repeat split; try assumption; try reflexivity;
    try (apply (theta_bounded _ _ Hdt));
    try (apply (theta_bounded _ _ Hwt));
    try (apply (calc_r_in_range _ _ Hdr));
    try (apply (calc_r_in_range _ _ Hwr)).
Qed.

Lemma indicator_stage_succeeds_witness :
  exists v,
    get_stock_data_indicators [100; 101] [99] = Ok (Computed v) /\
    error_object (get_stock_data_indicators [100; 101] [99]) = false /\
    daily_candles v = len [100; 101] /\
    weekly_candles v = len [99] /\
    -180 <= daily_theta v <= 180 /\
    -180 <= weekly_theta v <= 180 /\
    -5 <= daily_r v <= 5 /\
    -5 <= weekly_r v <= 5.
Proof.
  apply (indicator_stage_succeeds [100; 101] [99]);
    vm_compute; discriminate.
Defined.

(** X14.  In the computed locals each EMA is missing exactly when its
    history has fewer candles than its period (13, 21, 34 or 55), daily and
    weekly alike. *)
Theorem indicator_stage_ema_availability (hist_daily hist_weekly : list R) :
  (1 <= len hist_daily)%Z -> (1 <= len hist_weekly)%Z ->
  exists v,
    get_stock_data_indicators hist_daily hist_weekly = Ok (Computed v) /\
    (daily_ema_13 v = None <-> (len hist_daily < 13)%Z) /\
    (daily_ema_21 v = None <-> (len hist_daily < 21)%Z) /\
    (daily_ema_34 v = None <-> (len hist_daily < 34)%Z) /\
    (daily_ema_55 v = None <-> (len hist_daily < 55)%Z) /\
    (weekly_ema_13 v = None <-> (len hist_weekly < 13)%Z) /\
    (weekly_ema_21 v = None <-> (len hist_weekly < 21)%Z) /\
    (weekly_ema_34 v = None <-> (len hist_weekly < 34)%Z) /\
    (weekly_ema_55 v = None <-> (len hist_weekly < 55)%Z).
Proof.
  intros Hd Hw.
  destruct (stage_succeeds hist_daily hist_weekly Hd Hw) as (v & E).
  pose proof (stage_computed hist_daily hist_weekly v E) as F.
  unfold computed_from in F.
  destruct F as (_ & _ & D34 & D55 & D21 & D13 &
                 W34 & W55 & W21 & W13 & _).
  exists v. split; [exact E|].
  split; [exact (calculate_ema_none_iff hist_daily 13 _ eq_refl D13)|].
  split; [exact (calculate_ema_none_iff hist_daily 21 _ eq_refl D21)|].
  split; [exact (calculate_ema_none_iff hist_daily 34 _ eq_refl D34)|].
  split; [exact (calculate_ema_none_iff hist_daily 55 _ eq_refl D55)|].
  split; [exact (calculate_ema_none_iff hist_weekly 13 _ eq_refl W13)|].
  split; [exact (calculate_ema_none_iff hist_weekly 21 _ eq_refl W21)|].
  split; [exact (calculate_ema_none_iff hist_weekly 34 _ eq_refl W34)|].
  exact (calculate_ema_none_iff hist_weekly 55 _ eq_refl W55).
Qed.

Lemma indicator_stage_ema_availability_witness :
  exists v,
    get_stock_data_indicators (repeat 100 40) (repeat 100 14)
      = Ok (Computed v) /\
    (daily_ema_13 v = None <-> (len (repeat 100 40) < 13)%Z) /\
    (daily_ema_21 v = None <-> (len (repeat 100 40) < 21)%Z) /\
    (daily_ema_34 v = None <-> (len (repeat 100 40) < 34)%Z) /\
    (daily_ema_55 v = None <-> (len (repeat 100 40) < 55)%Z) /\
    (weekly_ema_13 v = None <-> (len (repeat 100 14) < 13)%Z) /\
    (weekly_ema_21 v = None <-> (len (repeat 100 14) < 21)%Z) /\
    (weekly_ema_34 v = None <-> (len (repeat 100 14) < 34)%Z) /\
    (weekly_ema_55 v = None <-> (len (repeat 100 14) < 55)%Z).
Proof.
  apply (indicator_stage_ema_availability (repeat 100 40) (repeat 100 14));
    vm_compute; discriminate.
Defined.

Lemma percent_defined (v : indicators) :
  exists p,
    regularMarketChangePercent v = Ok p /\
    (prev_price v = 0 -> p = 0) /\
    (prev_price v <> 0 ->
     p = (current_price v - prev_price v) / prev_price v * 100).
Proof.
  unfold regularMarketChangePercent.
  destruct (Reqb_spec (prev_price v) 0) as [E|NE]; simpl.
  - exists 0. split; [reflexivity|]. split; [reflexivity|contradiction].
  - rewrite truediv_nonzero by exact NE. cbn [bind]. eexists.
    split; [reflexivity|]. split; [contradiction|reflexivity].
Qed.

(** X15.  The percent change never raises: it is [0] when the previous
    close is [0] and [(current - previous) / previous * 100] otherwise.  With
    a single daily candle the previous close is the current one, so the
    change and the percent change are both [0]. *)
Theorem price_change_edges :
  (forall v : indicators,
      exists p,
        regularMarketChangePercent v = Ok p /\
        (prev_price v = 0 -> p = 0) /\
        (prev_price v <> 0 ->
         p = (current_price v - prev_price v) / prev_price v * 100)) /\
  (forall hist_daily hist_weekly : list R,
      len hist_daily = 1%Z -> (1 <= len hist_weekly)%Z ->
      exists v,
        get_stock_data_indicators hist_daily hist_weekly = Ok (Computed v) /\
        prev_price v = current_price v /\
        regularMarketChange v = 0 /\
        regularMarketChangePercent v = Ok 0).
Proof.
  split; [exact percent_defined|].
  intros hist_daily hist_weekly Hd Hw.
  destruct (stage_succeeds hist_daily hist_weekly ltac:(lia) Hw) as (v & E).
  pose proof (stage_computed hist_daily hist_weekly v E) as F.
  unfold computed_from in F. destruct F as (_ & Hprev & _).
  rewrite Hd in Hprev. change (1 <? 1)%Z with false in Hprev.
  apply Ok_inj in Hprev.
  exists v. split; [exact E|]. split; [now symmetry|].
  split; [unfold regularMarketChange; rewrite <- Hprev; ring|].
  destruct (percent_defined v) as (p & -> & Hzero & Hnonzero). f_equal.
  destruct (Req_dec_T (prev_price v) 0) as [Z0|NZ]; [now apply Hzero|].
  rewrite (Hnonzero NZ), <- Hprev. unfold Rdiv. ring.
Qed.

Lemma price_change_edges_witness :
  exists v,
    get_stock_data_indicators [100] [99; 98] = Ok (Computed v) /\
    prev_price v = current_price v /\
    regularMarketChange v = 0 /\
    regularMarketChangePercent v = Ok 0.
Proof.
  apply (proj2 price_change_edges [100] [99; 98]).
  - reflexivity.
  - vm_compute. discriminate.
Defined.

(** ** The command line *)

(** X16.  Reading the command line never indexes out of range.  Fewer than
    two entries in [sys.argv] give the usage error; otherwise the ticker is
    the second entry, the period defaults to ["1y"] and the end date to
    [None], and entries after the fourth are ignored. *)
Theorem main_arguments_cases (argv : list (list ascii)) :
  (exists i, main_arguments argv = Ok i) /\
  ((len argv < 2)%Z -> main_arguments argv = Ok Usage) /\
  (forall prog ticker,
      argv = [prog; ticker] ->
      main_arguments argv = Ok (Run ticker ["1"; "y"]%char None)) /\
  (forall prog ticker period,
      argv = [prog; ticker; period] ->
      main_arguments argv = Ok (Run ticker period None)) /\
  (forall prog ticker period date extra,
      argv = prog :: ticker :: period :: date :: extra ->
      main_arguments argv = Ok (Run ticker period (Some date))).
Proof.
  assert (Hlong : forall prog ticker period date extra,
             argv = prog :: ticker :: period :: date :: extra ->
             main_arguments argv = Ok (Run ticker period (Some date))).
  { intros prog ticker period date extra ->. unfold main_arguments.
    rewrite !len_cons. pose proof (len_nonneg extra) as He.
    destruct (Z.ltb_spec (len extra + 1 + 1 + 1 + 1) 2); [lia|].
    destruct (Z.ltb_spec 2 (len extra + 1 + 1 + 1 + 1)); [|lia].
    destruct (Z.ltb_spec 3 (len extra + 1 + 1 + 1 + 1)); [|lia].
    reflexivity. }
  split; [|split; [|split; [|split]]].
  - destruct argv as [|prog [|ticker [|period [|date extra]]]];
      try (eexists; reflexivity).
    eexists. now apply (Hlong prog ticker period date extra).
  - intros Hlt. unfold main_arguments.
    destruct (Z.ltb_spec (len argv) 2); [reflexivity|lia].
  - now intros prog ticker ->.
  - now intros prog ticker period ->.
  - exact Hlong.
Qed.

Lemma main_arguments_cases_witness :
  main_arguments [["x"]%char] = Ok Usage /\
  main_arguments [["x"]; ["A"]; ["5"; "d"]]%char
    = Ok (Run ["A"]%char ["5"; "d"]%char None).
Proof.
  split.
  - apply (proj1 (proj2 (main_arguments_cases [["x"]%char]))).
    vm_compute. reflexivity.
  - apply (proj1 (proj2 (proj2 (proj2
             (main_arguments_cases [["x"]; ["A"]; ["5"; "d"]]%char))))
             ["x"]%char ["A"]%char ["5"; "d"]%char).
    reflexivity.
Defined.

(** ** Two decimals *)

Lemma py_round_2_hundredths (x : R) : exists k : Z, py_round x 2 = IZR k / 100.
Proof.
  exists (round_half_even (x * 10 ^ 2)). unfold py_round. simpl pow.
  f_equal. ring.
Qed.

Lemma hundredths_int (n : Z) : exists k : Z, IZR n = IZR k / 100.
Proof. exists (n * 100)%Z. rewrite mult_IZR. field. Qed.

(** X17.  Whatever the series, theta, the z-score and the convergence ratio
    come out as whole numbers of hundredths. *)
Theorem indicators_two_decimals (prices : list R) (current : R) :
  (exists k : Z, calc_theta_from_flow prices = Ok (IZR k / 100)) /\
  (exists k : Z, calc_z prices current = Ok (IZR k / 100)) /\
  (exists k : Z, calc_r prices = Ok (IZR k / 100)).
Proof.
  split; [|split].
  - destruct (theta_cases prices) as [->|(y & x & ->)].
    + destruct (hundredths_int 0) as (k & ->). now exists k.
    + destruct (py_round_2_hundredths (degrees (atan2 y x))) as (k & ->).
      now exists k.
  - destruct (Z.lt_ge_cases (len prices) 21) as [Hlt|Hge].
    + rewrite (calc_z_short prices current Hlt).
      destruct (hundredths_int 0) as (k & ->). now exists k.
    + destruct (medians_defined prices) as (median & mad & Hmed & Hmad);
        [lia|].
      rewrite (calc_z_long prices current median mad Hge Hmed Hmad).
      destruct (Reqb mad 0).
      * destruct (hundredths_int 0) as (k & ->). now exists k.
      * destruct (py_round_2_hundredths ((current - median) / mad))
          as (k & ->).
        now exists k.
  - destruct (Z.lt_ge_cases (len prices) 35) as [Hlt|Hge].
    + rewrite (calc_r_short prices Hlt).
      destruct (hundredths_int 1) as (k & ->). now exists k.
    + destruct (rolling_z_total prices 34) as (z_curr & Hc); [lia|].
      destruct (rolling_z_total (iloc_upto prices (-1)) 34) as (z_prev & Hp);
        [lia|].
      rewrite <- (z_prev_of_long prices Hge) in Hp.
      rewrite (calc_r_long prices z_curr z_prev Hge Hc Hp).
      destruct z_curr as [zc|], z_prev as [zp|];
        try (destruct (hundredths_int 1) as (k & ->); now exists k).
      destruct (Reqb zp 0).
      * destruct (hundredths_int 1) as (k & ->). now exists k.
      * destruct (py_round_2_hundredths (py_max (-5) (py_min 5 (zc / zp))))
          as (k & ->).
        now exists k.
Qed.
